(** * cost-model: the retry executor and the Prometheus query context

    A shallow embedding of [pkg/util/retry/retry.go] and of the
    synchronous query path of [pkg/prom/query.go], with the properties
    the specification states about them. *)

From Stdlib Require Import ZArith Lia List String Ascii Sorted Floats.
From stdpp Require Import gmap strings list pretty.

#[local] Set Warnings "-register-all".
Local Open Scope Z_scope.

(** ** Go's [int64] *)

Module Int64.

Definition minInt64 : Z := - 2 ^ 63.
Definition maxInt64 : Z := 2 ^ 63 - 1.

(** Two's complement wrap-around of a mathematical integer. *)
Definition wrap (z : Z) : Z := (z + 2 ^ 63) mod 2 ^ 64 - 2 ^ 63.

Definition add (x y : Z) : Z := wrap (x + y).
Definition neg (x : Z) : Z := wrap (- x).
(** Go's [/] truncates towards zero. *)
Definition div (x y : Z) : Z := wrap (Z.quot x y).

End Int64.

(** ** Package [retry] *)

Module retry.

(** A Go [error] is observed through its [Error()] text; [None] is the
    nil error. *)
Definition error : Type := string.

(** [var RetryCancellationErr error = fmt.Errorf("RetryCancellationErr")] *)
Definition RetryCancellationErr : error := "RetryCancellationErr"%string.

Definition IsRetryCancelledError (err : option error) : bool :=
  match err with
  | Some e => String.eqb e "RetryCancellationErr"
  | None => false
  end.

(** What a call of [Retry] does to its surroundings: how often it ran the
    operation, polled [ctx.Done()] and drew from the random source, and
    the durations it slept, oldest first. *)
Record World : Type := mkWorld {
  calls : nat;
  polls : nat;
  draws : nat;
  slept : list Z
}.

Definition start : World := mkWorld 0 0 0 [].

Definition poll (w : World) : World :=
  mkWorld (calls w) (S (polls w)) (draws w) (slept w).

Definition call (w : World) : World :=
  mkWorld (S (calls w)) (polls w) (draws w) (slept w).

(** [time.Sleep(d)]; a zero or negative [d] returns at once. *)
Definition Sleep (d : Z) (w : World) : World :=
  mkWorld (calls w) (polls w) (draws w) (slept w ++ [d]).

Definition draw (w : World) : World :=
  mkWorld (calls w) (polls w) (S (draws w)) (slept w).

(** A Go call either returns its two values or panics. *)
Inductive outcome (A : Type) : Type :=
| Returned (result : option A) (err : option error)
| Panicked (msg : string).
Arguments Returned {A} result err.
Arguments Panicked {A} msg.

(** [d = d + jitter/2] on [time.Duration], an [int64]. *)
Definition nextDelay (d jitter : Z) : Z :=
  Int64.add d (Int64.div jitter 2).

Section Executor.

(** [A] stands for the dynamic values inside the operation's
    [interface{}]; [None] is the nil interface. *)
Context {A : Type}.

(** The surroundings of one call: [f i] is what the [i]-th invocation of
    the operation returns, [ctxDone i] whether [ctx.Done()] is ready at
    the [i]-th poll, [source i] the [i]-th raw draw of the global random
    source (all counted from zero). *)
Variable f : nat -> option A * option error.
Variable ctxDone : nat -> bool.
Variable source : nat -> Z.

(** [rand.Int63n(n)]: panics unless [0 < n], otherwise a value in
    [[0, n)]. *)
Definition Int63n (w : World) (n : Z) : option Z :=
  if n <=? 0 then None else Some (source (draws w) mod n).

(** [for r := attempts; r > 0; r-- { ... }] followed by
    [return result, err]. *)
Fixpoint loop (r : nat) (d : Z) (result : option A) (err : option error)
    (w : World) : outcome A * World :=
  match r with
  | O => (Returned result err, w)
  | S r' =>
      if ctxDone (polls w) then
        (Returned None (Some RetryCancellationErr), poll w)
      else
        let w := poll w in
        let (result, err) := f (calls w) in
        let w := call w in
        match err with
        | None => (Returned result err, w)
        | Some _ =>
            let w := Sleep d w in
            match Int63n w d with
            | None => (Panicked "invalid argument to Int63n", w)
            | Some jitter =>
                loop r' (nextDelay d jitter) result err (draw w)
            end
        end
  end.

Definition Retry (attempts : nat) (delay : Z) : outcome A * World :=
  loop attempts delay None None start.

(** The delays slept by [m] consecutive failed attempts that start with
    delay [d] after [k] draws. *)
Fixpoint delays (k : nat) (d : Z) (m : nat) : list Z :=
  match m with
  | O => []
  | S m' => d :: delays (S k) (nextDelay d (source k mod d)) m'
  end.

(** The delay that [m] consecutive failed attempts leave behind. *)
Fixpoint delayAfter (k : nat) (d : Z) (m : nat) : Z :=
  match m with
  | O => d
  | S m' => delayAfter (S k) (nextDelay d (source k mod d)) m'
  end.

End Executor.

(** The largest delay that [m] updates can reach from [d], each adding
    at most half of the delay. *)
Fixpoint ceilAfter (m : nat) (d : Z) : Z :=
  match m with
  | O => d
  | S m' => ceilAfter m' (d + d / 2)
  end.

(** Whether every delay of a list is strictly positive, that is, fit to
    be handed to [rand.Int63n]. *)
Definition allPositive (l : list Z) : bool := forallb (Z.ltb 0) l.

(** Whether a list of delays never decreases. *)
Fixpoint nondecreasing (l : list Z) : bool :=
  match l with
  | x :: (y :: _) as tl => (x <=? y) && nondecreasing tl
  | _ => true
  end.

End retry.

(** ** Package [prom] *)

Module prom.

Local Open Scope string_scope.

Definition apiPrefix : string := "/api/v1".
Definition epQuery : string := apiPrefix ++ "/query".
Definition epQueryRange : string := apiPrefix ++ "/query_range".

(** [time.RFC3339] and [time.RFC3339Nano] *)
Definition RFC3339 : string := "2006-01-02T15:04:05Z07:00".
Definition RFC3339Nano : string := "2006-01-02T15:04:05.999999999Z07:00".

(** A [[]byte], by its bytes; nil and empty are not told apart. *)
Definition bytes : Type := string.

(** The dynamic values an [interface{}] holds on the query path, each
    with its Go type: nil, [bool], [float64], [string], [[]string],
    [[]interface{}] and [map[string]interface{}]. *)
Inductive value : Type :=
| VNil
| VBool (b : bool)
| VFloat64 (x : float)
| VString (s : string)
| VStrings (l : list string)
| VSlice (l : list value)
| VMap (m : gmap string value).

(** [url.Values] and [http.Header] are [map[string][]string]. *)
Abbreviation Values := (gmap string (list string)).
Abbreviation Header := (gmap string (list string)).

(** [q.Set(key, value)] *)
Definition Set_ (key val : string) (q : Values) : Values :=
  <[key := [val]]> q.

(** The parts of a [url.URL] the package touches: everything but the
    query, and the [RawQuery] field. *)
Record URL : Type := mkURL {
  urlBase : string;
  urlRawQuery : string
}.

(** An [http.Request] with the metadata [httputil] attaches to it. *)
Record Request : Type := mkRequest {
  Method : string;
  Target : string;
  ReqHeader : Header;
  ReqName : option string;
  ReqQuery : option string
}.

Record Response : Type := mkResponse {
  StatusCode : Z;
  RespHeader : Header
}.

(** Arguments of a format call, kept as the values handed over. *)
Inductive arg : Type :=
| AStr (s : string)
| AInt (n : Z)
| AStatusText (code : Z)
| AHeader (h : Header)
| AHeaderString (h : Header).

(** Errors of the query path: one received from a collaborator (by its
    [Error()] text), one made by [fmt.Errorf], one made by [CommErrorf]. *)
Inductive error : Type :=
| Foreign (msg : string)
| Errorf (format : string) (args : list arg)
| CommErrorf (format : string) (args : list arg).

(** [prometheus.Client]: [URL(ep, nil)] and [Do(ctx, req)], the latter
    returning the response (nil or not), the body and an error. *)
Record Client : Type := mkClient {
  ClientURL : string -> URL;
  ClientDo : Request -> option Response * bytes * option string
}.

(** [Context]; the synchronous path never reads the error collector. *)
Record Context : Type := mkContext {
  client : Client;
  name : string
}.

Definition NewContext (c : Client) : Context := mkContext c "".

Definition NewNamedContext (c : Client) (n : string) : Context :=
  mkContext (client (NewContext c)) n.

(** JSON documents, as the text of a response body denotes them; the
    fields of an object in the order of the text. *)
Inductive json : Type :=
| JNull
| JBool (b : bool)
| JNumber (x : float)
| JString (s : string)
| JArray (l : list json)
| JObject (fields : list (string * json)).

(** A call either returns or panics. *)
Inductive result (A : Type) : Type :=
| Ret (a : A)
| Panic (msg : string).
Arguments Ret {A} a.
Arguments Panic {A} msg.

(** [*QueryResults], what the result decoder hands back. *)
Record QueryResults (QueryResult : Type) : Type := mkQueryResults {
  Query : string;
  Results : option (list QueryResult);
  Error : option error
}.
Arguments mkQueryResults {QueryResult} _ _ _.
Arguments Query {QueryResult} _.
Arguments Results {QueryResult} _.
Arguments Error {QueryResult} _.

(** What the package takes from the standard library, from the process
    environment and from files of the repository that are not part of
    the sources at hand:
    - [time.Time] with [Add], [UTC] and [Format];
    - [time.Duration.Seconds] and [strconv.FormatFloat];
    - [url.ParseQuery], [Values.Encode] and [URL.String];
    - the error of [http.NewRequest(method, url, nil)], if any;
    - the JSON document a body spells, or its syntax error;
    - [env.GetPrometheusQueryOffset()], read once at start-up;
    - the constant [AllocationContextName];
    - [IsNoStoreAPIWarning];
    - the result decoder [NewQueryResults] and its records. *)
Record Env : Type := mkEnv {
  Time : Type;
  Add : Time -> Z -> Time;
  UTC : Time -> Time;
  Format : Time -> string -> string;
  Seconds : Z -> float;
  FormatFloat : float -> ascii -> Z -> Z -> string;
  ParseQuery : string -> Values;
  Encode : Values -> string;
  URLString : URL -> string;
  NewRequestError : string -> string -> option string;
  parse : bytes -> json + string;
  promQueryOffset : Z;
  AllocationContextName : string;
  IsNoStoreAPIWarning : string -> bool;
  QueryResult : Type;
  NewQueryResults : string -> value -> QueryResults QueryResult
}.

(** Modelled from the spec: [json.Unmarshal] of [pkg/util/json] is not
    among the sources. The spec has the body decoded as generic JSON
    ([{status, data, warnings?}]); decoded into a Go [interface{}], a JSON
    object is stored as a [map[string]interface{}] (a repeated key keeps
    its last value) and a JSON array as a [[]interface{}], whatever its
    elements are. *)
Fixpoint generic (j : json) : value :=
  match j with
  | JNull => VNil
  | JBool b => VBool b
  | JNumber x => VFloat64 x
  | JString s => VString s
  | JArray l => VSlice (List.map generic l)
  | JObject fields =>
      VMap (fold_left (fun m kv => <[fst kv := generic (snd kv)]> m)
                      fields ∅)
  end.

Section Package.

Variable E : Env.

(** Modelled from the spec: [json.Unmarshal(body, &toReturn)] with
    [toReturn] an [interface{}]; see [generic]. *)
Definition Unmarshal (body : bytes) : value + string :=
  match parse E body with
  | inl doc => inl (generic doc)
  | inr e => inr e
  end.

(** Modelled from the spec: [httputil.SetName] and [httputil.SetQuery]
    are not among the sources; outgoing requests carry a context name tag
    and the original query text. *)
Definition SetName (req : Request) (n : string) : Request :=
  mkRequest (Method req) (Target req) (ReqHeader req) (Some n) (ReqQuery req).

Definition SetQuery (req : Request) (q : string) : Request :=
  mkRequest (Method req) (Target req) (ReqHeader req) (ReqName req) (Some q).

(** [http.NewRequest(method, url, nil)] *)
Definition NewRequest (method url : string) : Request + string :=
  match NewRequestError E method url with
  | Some e => inr e
  | None => inl (mkRequest method url ∅ None None)
  end.

(** The [q] of [RawQuery] at [u.RawQuery = q.Encode()]; [now] is what
    [time.Now()] reads. *)
Definition RawQueryValues (ctx : Context) (query : string) (now : Time E)
    : Values :=
  let u := ClientURL (client ctx) epQuery in
  let q := ParseQuery E (urlRawQuery u) in
  let q := Set_ "query" query q in
  if negb (promQueryOffset E =? 0)%Z
     && negb (String.eqb (name ctx) (AllocationContextName E))
  then
    Set_ "time"
      (Format E (UTC E (Add E now (Int64.neg (promQueryOffset E)))) RFC3339) q
  else
    Set_ "time" (Format E (UTC E now) RFC3339) q.

(** The [req] of [RawQuery] at [ctx.Client.Do(context.Background(), req)],
    or the error of [http.NewRequest]. *)
Definition RawQueryRequest (ctx : Context) (query : string) (now : Time E)
    : Request + string :=
  let u := ClientURL (client ctx) epQuery in
  let u := mkURL (urlBase u) (Encode E (RawQueryValues ctx query now)) in
  match NewRequest "POST" (URLString E u) with
  | inr err => inr err
  | inl req =>
      let req := if negb (String.eqb (name ctx) "")
                 then SetName req (name ctx) else req in
      inl (SetQuery req query)
  end.

(** RawQuery is a direct query to the prometheus client and returns the
    body of the response. *)
Definition RawQuery (ctx : Context) (query : string) (now : Time E)
    : result (bytes * option error) :=
  match RawQueryRequest ctx query now with
  | inr err => Ret ("", Some (Foreign err))
  | inl req =>
      match ClientDo (client ctx) req with
      | (None, _, Some err) =>
          Ret ("", Some (Errorf "query error: '%s' fetching query '%s'"
                                [AStr err; AStr query]))
      | (Some resp, _, Some err) =>
          Ret ("", Some (Errorf "query error %d: '%s' fetching query '%s'"
                                [AInt (StatusCode resp); AStr err; AStr query]))
      | (None, _, None) =>
          Panic "runtime error: invalid memory address or nil pointer dereference"
      | (Some resp, body, None) =>
          let statusCode := StatusCode resp in
          if (StatusCode resp <? 200)%Z || (300 <=? StatusCode resp)%Z then
            Ret ("", Some (CommErrorf
              "%d (%s) URL: '%s', Request Headers: '%s', Headers: '%s', Body: '%s' Query: '%s'"
              [AInt statusCode; AStatusText statusCode; AStr (Target req);
               AHeader (ReqHeader req); AHeaderString (RespHeader resp);
               AStr body; AStr query]))
          else Ret (body, None)
      end
  end.

(** Extracts the warnings from the resulting json if they exist (part of
    the prometheus response api). *)
Definition warningsFrom (result : value) : list string :=
  match result with
  | VMap resultMap =>
      match resultMap !! "warnings" with
      | Some (VStrings w) => w
      | _ => []
      end
  | _ => []
  end.

(** [for _, w := range warnings { ... }] of [query] and [queryRange]: the
    error made for the first store-API warning, and the warnings logged
    before it. *)
Fixpoint rangeWarnings (body : bytes) (query : string) (ws : list string)
    : option error * list string :=
  match ws with
  | [] => (None, [])
  | w :: ws' =>
      if IsNoStoreAPIWarning E w then
        (Some (CommErrorf "Error: %s, Body: %s, Query: %s"
                          [AStr w; AStr body; AStr query]), [])
      else
        let (err, logged) := rangeWarnings body query ws' in
        (err, w :: logged)
  end.

Definition query (ctx : Context) (q : string) (now : Time E)
    : result (value * list string * option error) :=
  match RawQuery ctx q now with
  | Panic msg => Panic msg
  | Ret (_, Some err) => Ret (VNil, [], Some err)
  | Ret (body, None) =>
      match Unmarshal body with
      | inr err =>
          Ret (VNil, [],
               Some (Errorf ("Unmarshal Error: %s" ++ String "010" "Query: %s")
                            [AStr err; AStr q]))
      | inl toReturn =>
          let warnings := warningsFrom toReturn in
          match fst (rangeWarnings body q warnings) with
          | Some err => Ret (VNil, warnings, Some err)
          | None => Ret (toReturn, warnings, None)
          end
      end
  end.

Definition QuerySync (ctx : Context) (q : string) (now : Time E)
    : result (option (list (QueryResult E)) * list string * option error) :=
  match query ctx q now with
  | Panic msg => Panic msg
  | Ret (_, warnings, Some err) => Ret (None, warnings, Some err)
  | Ret (raw, warnings, None) =>
      let results := NewQueryResults E q raw in
      match Error results with
      | Some err => Ret (None, warnings, Some err)
      | None => Ret (Results results, warnings, None)
      end
  end.

(** The [q] of [RawQueryRange] at [u.RawQuery = q.Encode()]. *)
Definition RawQueryRangeValues (ctx : Context) (query : string)
    (start end_ : Time E) (step : Z) : Values :=
  let u := ClientURL (client ctx) epQueryRange in
  let q := ParseQuery E (urlRawQuery u) in
  let q := Set_ "query" query q in
  let q := Set_ "start" (Format E start RFC3339Nano) q in
  let q := Set_ "end" (Format E end_ RFC3339Nano) q in
  Set_ "step" (FormatFloat E (Seconds E step) "f"%char 3 64) q.

Definition RawQueryRangeRequest (ctx : Context) (query : string)
    (start end_ : Time E) (step : Z) : Request + string :=
  let u := ClientURL (client ctx) epQueryRange in
  let u := mkURL (urlBase u)
                 (Encode E (RawQueryRangeValues ctx query start end_ step)) in
  match NewRequest "POST" (URLString E u) with
  | inr err => inr err
  | inl req =>
      let req := if negb (String.eqb (name ctx) "")
                 then SetName req (name ctx) else req in
      inl (SetQuery req query)
  end.

Definition RawQueryRange (ctx : Context) (query : string)
    (start end_ : Time E) (step : Z) : result (bytes * option error) :=
  match RawQueryRangeRequest ctx query start end_ step with
  | inr err => Ret ("", Some (Foreign err))
  | inl req =>
      match ClientDo (client ctx) req with
      | (None, body, Some err) =>
          Ret ("", Some (Errorf "Error: %s, Body: %s Query: %s"
                                [AStr err; AStr body; AStr query]))
      | (Some resp, body, Some err) =>
          Ret ("", Some (Errorf
            "%d (%s) Headers: %s Error: %s Body: %s Query: %s"
            [AInt (StatusCode resp); AStatusText (StatusCode resp);
             AHeaderString (RespHeader resp); AStr body; AStr err; AStr query]))
      | (None, _, None) =>
          Panic "runtime error: invalid memory address or nil pointer dereference"
      | (Some resp, body, None) =>
          let statusCode := StatusCode resp in
          if (StatusCode resp <? 200)%Z || (300 <=? StatusCode resp)%Z then
            Ret ("", Some (CommErrorf
              "%d (%s) Headers: %s, Body: %s Query: %s"
              [AInt statusCode; AStatusText statusCode;
               AHeaderString (RespHeader resp); AStr body; AStr query]))
          else Ret (body, None)
      end
  end.

Definition queryRange (ctx : Context) (q : string) (start end_ : Time E)
    (step : Z) : result (value * list string * option error) :=
  match RawQueryRange ctx q start end_ step with
  | Panic msg => Panic msg
  | Ret (_, Some err) => Ret (VNil, [], Some err)
  | Ret (body, None) =>
      match Unmarshal body with
      | inr err =>
          Ret (VNil, [],
               Some (Errorf ("Unmarshal Error: %s" ++ String "010" "Query: %s")
                            [AStr err; AStr q]))
      | inl toReturn =>
          let warnings := warningsFrom toReturn in
          match fst (rangeWarnings body q warnings) with
          | Some err => Ret (VNil, warnings, Some err)
          | None => Ret (toReturn, warnings, None)
          end
      end
  end.

Definition QueryRangeSync (ctx : Context) (q : string) (start end_ : Time E)
    (step : Z)
    : result (option (list (QueryResult E)) * list string * option error) :=
  match queryRange ctx q start end_ step with
  | Panic msg => Panic msg
  | Ret (_, warnings, Some err) => Ret (None, warnings, Some err)
  | Ret (raw, warnings, None) =>
      let results := NewQueryResults E q raw in
      match Error results with
      | Some err => Ret (None, warnings, Some err)
      | None => Ret (Results results, warnings, None)
      end
  end.

End Package.

End prom.

(** ** Sample surroundings

    Operations, cancellation signals and random sources on which the
    theorems below are instantiated. *)

Module samples.

Local Open Scope string_scope.

(** An operation that fails [n] times and then returns [v]. *)
Definition failsThenReturns (n : nat) (v : string)
    : nat -> option string * option retry.error :=
  fun i => if (i <? n)%nat then (None, Some "connection refused")
           else (Some v, None).

(** An operation that fails on every attempt, reporting which one. *)
Definition alwaysFails : nat -> option string * option retry.error :=
  fun i => (Some "partial", Some (if (i =? 0)%nat then "first" else "later")).

(** A context that is never cancelled, and one cancelled from the [n]-th
    poll on. *)
Definition never : nat -> bool := fun _ => false.
Definition cancelledFrom (n : nat) : nat -> bool := fun i => (n <=? i)%nat.

(** Random sources: a constant one, and one of large draws. *)
Definition constant (z : Z) : nat -> Z := fun _ => z.
Definition large : nat -> Z := fun _ => Int64.maxInt64 - 1.

(** The delay that [i] updates leave behind when each jitter is as large
    as it can be without taking the delay past [c + 1], and the random
    source that draws these jitters. *)
Fixpoint climbAt (c d0 : Z) (i : nat) : Z :=
  match i with
  | O => d0
  | S i' =>
      let d := climbAt c d0 i' in
      Z.min (d + (d - 1) / 2) (c + 1)
  end.

Definition climbing (c d0 : Z) : nat -> Z :=
  fun i => 2 * (climbAt c d0 (S i) - climbAt c d0 i).

(** A backend that answers every request with status 200 and [body]. *)
Definition backend (body : prom.bytes) : prom.Client :=
  prom.mkClient
    (fun ep => prom.mkURL ("http://prometheus:9090" ++ ep) "")
    (fun _ => (Some (prom.mkResponse 200 ∅), body, None)).

Definition dq : string := String "034" "".
Definition quoted (s : string) : string := dq ++ s ++ dq.

(** The body [{status: success, data: {}, warnings: [w]}], as JSON text
    and as the document it spells. *)
Definition bodyWith (w : string) : prom.bytes :=
  "{" ++ quoted "status" ++ ":" ++ quoted "success" ++ ","
      ++ quoted "data" ++ ":{},"
      ++ quoted "warnings" ++ ":[" ++ quoted w ++ "]}".

Definition docWith (w : string) : prom.json :=
  prom.JObject [("status", prom.JString "success");
                ("data", prom.JObject []);
                ("warnings", prom.JArray [prom.JString w])].

Definition storeWarning : string := "No StoreAPIs matched for this query".
Definition partialResponse : string := "partial response".

(** A parser that knows the two sample bodies. *)
Definition parseSamples (body : prom.bytes) : prom.json + string :=
  if String.eqb body (bodyWith storeWarning) then inl (docWith storeWarning)
  else if String.eqb body (bodyWith partialResponse)
       then inl (docWith partialResponse)
       else inr "invalid character".

(** A decoder that hands back the [data] field of an object. *)
Definition decodeData (q : string) (raw : prom.value)
    : prom.QueryResults prom.value :=
  match raw with
  | prom.VMap m =>
      match m !! "data" with
      | Some d => prom.mkQueryResults q (Some [d]) None
      | None =>
          prom.mkQueryResults q None (Some (prom.Foreign "data is missing"))
      end
  | _ => prom.mkQueryResults q None (Some (prom.Foreign "not an object"))
  end.

(** Surroundings with times in seconds, printed in decimal, and a query
    offset of [offset] nanoseconds. *)
Definition env (offset : Z) : prom.Env :=
  prom.mkEnv Z Z.add id (fun t _ => pretty t)
    (fun _ => 0%float) (fun _ _ _ _ => "15.000")
    (fun _ => ∅)
    (fun q => match q !! "time" with Some [t] => "time=" ++ t | _ => "" end)
    (fun u => prom.urlBase u ++ "?" ++ prom.urlRawQuery u)
    (fun _ _ => None)
    parseSamples
    offset
    "allocation"
    (String.eqb storeWarning)
    prom.value
    decodeData.

End samples.

(** ** Package [metrics] *)

Module metrics.

Local Open Scope string_scope.

(** The parts of a pod the collectors read; [Controller] is a [*bool],
    [None] being the nil pointer. *)
Record OwnerReference : Type := mkOwnerReference {
  OwnerName : string;
  OwnerKind : string;
  Controller : option bool
}.

Record Pod : Type := mkPod {
  Name : string;
  Namespace : string;
  UID : string;
  Labels : gmap string string;
  Annotations : gmap string string;
  OwnerReferences : list OwnerReference
}.

(** [clustercache.ClusterCache], as far as the collectors use it. *)
Record ClusterCache : Type := mkClusterCache {
  GetAllPods : list Pod
}.

(** [prometheus.NewDesc(fqName, help, variableLabels, nil)] *)
Record Desc : Type := mkDesc {
  fqName : string;
  help : string;
  variableLabels : list string
}.

(** The metrics sent on the channel, each by the call that makes it:
    [newPodAnnotationMetric], [newKubePodLabelsMetric] and
    [newKubePodOwnerMetric] with their arguments. *)
Inductive Metric : Type :=
| PodAnnotationMetric (fqname namespace pod : string)
                      (labelNames labelValues : list string)
| KubePodLabelsMetric (fqname namespace pod uid : string)
                      (labelNames labelValues : list string)
| KubePodOwnerMetric (fqname namespace pod ownerName ownerKind : string)
                     (ownerIsController : bool).

Record KubecostPodLabelsCollector : Type := mkKubecostPodLabelsCollector {
  KubecostCache : ClusterCache
}.

Record KubePodLabelsCollector : Type := mkKubePodLabelsCollector {
  KubeCache : ClusterCache
}.

Section Collectors.

(** [prom.KubeAnnotationsToLabels] and [prom.KubePrependQualifierToLabels]
    live in files of the repository that are not at hand; each returns
    the label names and the label values. *)
Variable KubeAnnotationsToLabels : gmap string string -> list string * list string.
Variable KubePrependQualifierToLabels :
  gmap string string -> string -> list string * list string.

(** What [Describe] sends on its channel, in order. *)
Definition KubecostPodLabelsCollector_Describe
    (kpmc : KubecostPodLabelsCollector) : list Desc :=
  [mkDesc "kube_pod_annotations"
          "All annotations for each pod prefix with annotation_" []].

(** [for _, pod := range pods { ... }] of [Collect]: what is sent on the
    channel, in order. *)
Fixpoint rangeAnnotations (pods : list Pod) : list Metric :=
  match pods with
  | [] => []
  | pod :: pods' =>
      let podName := Name pod in
      let podNS := Namespace pod in
      let (labels, values) := KubeAnnotationsToLabels (Annotations pod) in
      if (0 <? length labels)%nat then
        PodAnnotationMetric "kube_pod_annotations" podNS podName labels values
        :: rangeAnnotations pods'
      else rangeAnnotations pods'
  end.

Definition KubecostPodLabelsCollector_Collect
    (kpmc : KubecostPodLabelsCollector) : list Metric :=
  let pods := GetAllPods (KubecostCache kpmc) in
  rangeAnnotations pods.

Definition KubePodLabelsCollector_Describe
    (kpmc : KubePodLabelsCollector) : list Desc :=
  [mkDesc "kube_pod_labels" "All labels for each pod prefixed with label_" [];
   mkDesc "kube_pod_owner" "Information about the Pod's owner" []].

(** [for _, owner := range pod.OwnerReferences { ... }] *)
Fixpoint rangeOwners (podNS podName : string) (owners : list OwnerReference)
    : list Metric :=
  match owners with
  | [] => []
  | owner :: owners' =>
      KubePodOwnerMetric "kube_pod_owner" podNS podName
        (OwnerName owner) (OwnerKind owner)
        (match Controller owner with Some _ => true | None => false end)
      :: rangeOwners podNS podName owners'
  end.

Fixpoint rangeLabels (pods : list Pod) : list Metric :=
  match pods with
  | [] => []
  | pod :: pods' =>
      let podName := Name pod in
      let podNS := Namespace pod in
      let podUID := UID pod in
      let (labelNames, labelValues) :=
        KubePrependQualifierToLabels (Labels pod) "label_" in
      KubePodLabelsMetric "kube_pod_labels" podNS podName podUID
                          labelNames labelValues
      :: rangeOwners podNS podName (OwnerReferences pod)
      ++ rangeLabels pods'
  end.

Definition KubePodLabelsCollector_Collect (kpmc : KubePodLabelsCollector)
    : list Metric :=
  let pods := GetAllPods (KubeCache kpmc) in
  rangeLabels pods.

End Collectors.

(** The namespace and the name of the pod a metric is about. *)
Definition metricPod (m : Metric) : string * string :=
  match m with
  | PodAnnotationMetric _ ns pod _ _ => (ns, pod)
  | KubePodLabelsMetric _ ns pod _ _ _ => (ns, pod)
  | KubePodOwnerMetric _ ns pod _ _ _ => (ns, pod)
  end.

Definition isLabelsMetric (m : Metric) : bool :=
  match m with KubePodLabelsMetric _ _ _ _ _ _ => true | _ => false end.

Definition isOwnerMetric (m : Metric) : bool :=
  match m with KubePodOwnerMetric _ _ _ _ _ _ => true | _ => false end.

End metrics.

(** ** Observations on runs and errors *)

Module observe.

(** The sum of the durations one call of [Retry] handed to
    [time.Sleep]; a sleep pauses for at least its duration, so the time
    spent asleep is at least this sum. *)
Definition sleepRequested (w : retry.World) : Z :=
  fold_right Z.add 0 (retry.slept w).

(** Whether an error made by the package was handed the query text [q]
    as an argument of its format. *)
Definition carriesQuery (q : string) (e : prom.error) : Prop :=
  match e with
  | prom.Foreign _ => False
  | prom.Errorf _ args => In (prom.AStr q) args
  | prom.CommErrorf _ args => In (prom.AStr q) args
  end.

(** Whether an error is one made by [CommErrorf]. *)
Definition isCommError (e : prom.error) : bool :=
  match e with prom.CommErrorf _ _ => true | _ => false end.

End observe.

(** ** More sample surroundings *)

Module fixtures.

Local Open Scope string_scope.

(** A client whose URLs already carry the parameter [tenant=a], and
    surroundings that know how to read it. *)
Definition tenantBackend (body : prom.bytes) : prom.Client :=
  prom.mkClient
    (fun ep => prom.mkURL ("http://thanos:9090" ++ ep) "tenant=a&query=old")
    (fun _ => (Some (prom.mkResponse 200 ∅), body, None)).

Definition tenantEnv (offset : Z) : prom.Env :=
  prom.mkEnv Z Z.add id (fun t _ => pretty t)
    (fun _ => 0%float) (fun _ _ _ _ => "15.000")
    (fun raw => if String.eqb raw "tenant=a&query=old"
                then <["tenant" := ["a"]]> (<["query" := ["old"]]> ∅)
                else ∅)
    (fun q => match q !! "time" with Some [t] => "time=" ++ t | _ => "" end)
    (fun u => prom.urlBase u ++ "?" ++ prom.urlRawQuery u)
    (fun _ _ => None)
    samples.parseSamples
    offset
    "allocation"
    (String.eqb samples.storeWarning)
    prom.value
    samples.decodeData.

(** Backends that fail: one with a status of 503, one whose transport
    gives up without a response. *)
Definition unavailable : prom.Client :=
  prom.mkClient
    (fun ep => prom.mkURL ("http://prometheus:9090" ++ ep) "")
    (fun _ => (Some (prom.mkResponse 503 ∅), "overloaded", None)).

Definition unreachable : prom.Client :=
  prom.mkClient
    (fun ep => prom.mkURL ("http://prometheus:9090" ++ ep) "")
    (fun _ => (None, "", Some "dial tcp: connection refused")).

(** Surroundings in which no request can be built. *)
Definition brokenEnv : prom.Env :=
  prom.mkEnv Z Z.add id (fun t _ => pretty t)
    (fun _ => 0%float) (fun _ _ _ _ => "15.000")
    (fun _ => ∅)
    (fun _ => "")
    (fun u => prom.urlBase u ++ "?" ++ prom.urlRawQuery u)
    (fun _ _ => Some "invalid URL escape")
    samples.parseSamples
    0
    "allocation"
    (String.eqb samples.storeWarning)
    prom.value
    samples.decodeData.

(** A client that hands back neither a response nor an error. *)
Definition silent : prom.Client :=
  prom.mkClient
    (fun ep => prom.mkURL ("http://prometheus:9090" ++ ep) "")
    (fun _ => (None, "", None)).

(** Label helpers that prefix each key, in the order of the keys. *)
Definition annotationsToLabels (m : gmap string string)
    : list string * list string :=
  (List.map (fun kv => "annotation_" ++ fst kv) (map_to_list m),
   List.map snd (map_to_list m)).

Definition prependQualifier (m : gmap string string) (q : string)
    : list string * list string :=
  (List.map (fun kv => q ++ fst kv) (map_to_list m),
   List.map snd (map_to_list m)).

Definition web : metrics.Pod :=
  metrics.mkPod "web-0" "shop" "uid-1" {["app" := "web"]}
    {["team" := "checkout"]}
    [metrics.mkOwnerReference "web" "StatefulSet" (Some false);
     metrics.mkOwnerReference "legacy" "Job" None].

Definition bare : metrics.Pod :=
  metrics.mkPod "bare" "default" "uid-2" ∅ ∅ [].

Definition cache : metrics.ClusterCache :=
  metrics.mkClusterCache [bare; web].

End fixtures.

(** ** Properties of [int64] arithmetic *)

Lemma wrap_inRange (z : Z) :
  Int64.minInt64 <= z <= Int64.maxInt64 -> Int64.wrap z = z.
Proof.
  unfold Int64.wrap, Int64.minInt64, Int64.maxInt64. intros Hz.
  rewrite Z.mod_small; lia.
Qed.

Lemma wrap_bounds (z : Z) :
  Int64.minInt64 <= Int64.wrap z <= Int64.maxInt64.
Proof.
  unfold Int64.wrap, Int64.minInt64, Int64.maxInt64.
  pose proof (Z.mod_pos_bound (z + 2 ^ 63) (2 ^ 64) ltac:(lia)). lia.
Qed.

Lemma half_bounds (j d : Z) :
  0 <= j < d -> 0 <= Z.quot j 2 /\ 2 * Z.quot j 2 < d /\ Z.quot j 2 <= d / 2.
Proof.
  intros Hj. rewrite Z.quot_div_nonneg by lia.
  pose proof (Z.div_le_mono j d 2 ltac:(lia) ltac:(lia)).
  pose proof (Z.mul_div_le j 2 ltac:(lia)).
  pose proof (Z.div_pos j 2 ltac:(lia) ltac:(lia)). lia.
Qed.

(** Without wrap-around the update is the plain sum. *)
Lemma nextDelay_exact (d j : Z) :
  0 <= j < d -> d + Z.quot j 2 <= Int64.maxInt64 ->
  retry.nextDelay d j = d + Z.quot j 2.
Proof.
  intros Hj Hmax. destruct (half_bounds j d Hj) as (H0 & H1 & H2).
  unfold retry.nextDelay, Int64.add, Int64.div.
  assert (Hq : Int64.wrap (Z.quot j 2) = Z.quot j 2).
  { apply wrap_inRange. unfold Int64.minInt64, Int64.maxInt64 in *. lia. }
  rewrite Hq. apply wrap_inRange.
  unfold Int64.minInt64, Int64.maxInt64 in *. lia.
Qed.

(** A sum that leaves [int64] at the top comes back negative. *)
Lemma nextDelay_wrapped (d j : Z) :
  0 <= j < d -> d <= Int64.maxInt64 -> Int64.maxInt64 < d + Z.quot j 2 ->
  retry.nextDelay d j < 0.
Proof.
  intros Hj Hd Hsum. destruct (half_bounds j d Hj) as (H0 & H1 & H2).
  unfold retry.nextDelay, Int64.add, Int64.div.
  assert (Hq : Int64.wrap (Z.quot j 2) = Z.quot j 2).
  { apply wrap_inRange. unfold Int64.minInt64, Int64.maxInt64 in *. lia. }
  rewrite Hq. unfold Int64.wrap, Int64.maxInt64 in *.
  replace (d + Z.quot j 2 + 2 ^ 63)
    with (d + Z.quot j 2 - 2 ^ 63 + 1 * 2 ^ 64) by lia.
  rewrite Z_mod_plus_full, Z.mod_small; lia.
Qed.

Lemma ceilAfter_mono (m : nat) (d d' : Z) :
  d <= d' -> retry.ceilAfter m d <= retry.ceilAfter m d'.
Proof.
  revert d d'. induction m as [|m IH]; intros d d' Hd; simpl; [lia|].
  apply IH. pose proof (Z.div_le_mono d d' 2 ltac:(lia) Hd). lia.
Qed.

Lemma ceilAfter_ge (m : nat) (d : Z) :
  0 <= d -> d <= retry.ceilAfter m d.
Proof.
  revert d. induction m as [|m IH]; intros d Hd; simpl; [lia|].
  pose proof (Z.div_pos d 2 Hd ltac:(lia)).
  specialize (IH (d + d / 2) ltac:(lia)). lia.
Qed.

Lemma ceilAfter_S (m : nat) (d : Z) :
  0 <= d -> retry.ceilAfter m d <= retry.ceilAfter (S m) d.
Proof.
  intros Hd. simpl. apply ceilAfter_mono.
  pose proof (Z.div_pos d 2 Hd ltac:(lia)). lia.
Qed.

(** ** Properties of [Retry] *)

Section RetryFacts.

Context {A : Type}.
Variable f : nat -> option A * option retry.error.
Variable ctxDone : nat -> bool.
Variable source : nat -> Z.

(** One failed attempt with a positive delay: the loop goes round. *)
Lemma loop_failed_once r d result err w :
  ctxDone (retry.polls w) = false ->
  snd (f (retry.calls w)) <> None ->
  0 < d ->
  retry.loop f ctxDone source (S r) d result err w =
  retry.loop f ctxDone source r
    (retry.nextDelay d (source (retry.draws w) mod d))
    (fst (f (retry.calls w))) (snd (f (retry.calls w)))
    (retry.mkWorld (S (retry.calls w)) (S (retry.polls w))
                   (S (retry.draws w)) (retry.slept w ++ [d])).
Proof.
  intros Hdone Hfail Hd. simpl. rewrite Hdone.
  destruct (f (retry.calls w)) as [res' [e|]] eqn:Hf; simpl in *; [|congruence].
  unfold retry.Int63n. simpl.
  destruct (Z.leb_spec d 0); [lia|]. reflexivity.
Qed.

(** [S m] failed attempts in a row, none of them handing a delay that is
    not positive to the jitter computation. *)
Lemma loop_failed m : forall r d result err w,
  (forall i, (i <= m)%nat -> ctxDone (retry.polls w + i)%nat = false) ->
  (forall i, (i <= m)%nat -> snd (f (retry.calls w + i)%nat) <> None) ->
  Forall (Z.lt 0) (retry.delays source (retry.draws w) d (S m)) ->
  retry.loop f ctxDone source (S m + r) d result err w =
  retry.loop f ctxDone source r
    (retry.delayAfter source (retry.draws w) d (S m))
    (fst (f (retry.calls w + m)%nat)) (snd (f (retry.calls w + m)%nat))
    (retry.mkWorld (retry.calls w + S m) (retry.polls w + S m)
                   (retry.draws w + S m)
                   (retry.slept w ++ retry.delays source (retry.draws w) d (S m))).
Proof.
  induction m as [|m IH]; intros r d result err w Hdone Hfail Hpos.
  - pose proof (Hdone 0%nat ltac:(lia)) as Hd0.
    pose proof (Hfail 0%nat ltac:(lia)) as Hf0.
    rewrite Nat.add_0_r in Hd0, Hf0.
    inversion Hpos; subst.
    change (1 + r)%nat with (S r).
    rewrite loop_failed_once by assumption.
    simpl. rewrite !Nat.add_0_r, !Nat.add_1_r. reflexivity.
  - pose proof (Hdone 0%nat ltac:(lia)) as Hd0.
    pose proof (Hfail 0%nat ltac:(lia)) as Hf0.
    rewrite Nat.add_0_r in Hd0, Hf0.
    inversion Hpos as [|x l Hx Hl]; subst.
    change (S (S m) + r)%nat with (S (S m + r)).
    rewrite loop_failed_once by assumption.
    rewrite IH; simpl retry.polls; simpl retry.calls; simpl retry.draws;
      simpl retry.slept.
    + replace (S (retry.calls w) + m)%nat with (retry.calls w + S m)%nat by lia.
      replace (S (retry.calls w) + S m)%nat with (retry.calls w + S (S m))%nat by lia.
      replace (S (retry.polls w) + S m)%nat with (retry.polls w + S (S m))%nat by lia.
      replace (S (retry.draws w) + S m)%nat with (retry.draws w + S (S m))%nat by lia.
      rewrite <- app_assoc. reflexivity.
    + intros i Hi. replace (S (retry.polls w) + i)%nat
        with (retry.polls w + S i)%nat by lia. apply Hdone. lia.
    + intros i Hi. replace (S (retry.calls w) + i)%nat
        with (retry.calls w + S i)%nat by lia. apply Hfail. lia.
    + exact Hl.
Qed.

Lemma allPositive_Forall (l : list Z) :
  retry.allPositive l = true <-> Forall (Z.lt 0) l.
Proof.
  unfold retry.allPositive. rewrite forallb_forall, List.Forall_forall.
  split; intros H x Hx; specialize (H x Hx); lia.
Qed.

Lemma delays_length k d m : length (retry.delays source k d m) = m.
Proof.
  revert k d. induction m as [|m IH]; intros k d; simpl; [|rewrite IH]; reflexivity.
Qed.

(** As long as the sums stay within [int64], the delays of consecutive
    failed attempts start at [d], never decrease, and stay below
    [ceilAfter]. *)
Lemma delays_in_range m : forall k d,
  0 < d -> retry.ceilAfter m d <= Int64.maxInt64 ->
  Forall (fun x => d <= x <= retry.ceilAfter m d)
         (retry.delays source k d (S m))
  /\ retry.nondecreasing (retry.delays source k d (S m)) = true.
Proof.
  induction m as [|m IH]; intros k d Hd Hmax.
  - simpl. split; [|reflexivity]. constructor; [lia|constructor].
  - pose proof (Z.mod_pos_bound (source k) d Hd) as Hj.
    destruct (half_bounds _ _ Hj) as (Hq0 & Hq1 & Hq2).
    assert (Hhalf : 0 <= d / 2) by (apply Z.div_pos; lia).
    assert (Hc : d + d / 2 <= retry.ceilAfter m (d + d / 2))
      by (apply ceilAfter_ge; lia).
    simpl in Hmax.
    assert (Hexact : retry.nextDelay d (source k mod d)
                     = d + Z.quot (source k mod d) 2)
      by (apply nextDelay_exact; lia).
    assert (Hmono : retry.ceilAfter m (d + Z.quot (source k mod d) 2)
                    <= retry.ceilAfter m (d + d / 2))
      by (apply ceilAfter_mono; lia).
    destruct (IH (S k) (retry.nextDelay d (source k mod d))) as [Hall Hnd].
    + rewrite Hexact. lia.
    + rewrite Hexact. lia.
    + change (retry.delays source k d (S (S m)))
        with (d :: retry.delays source (S k)
                     (retry.nextDelay d (source k mod d)) (S m)).
      split.
      * constructor.
        -- simpl. pose proof (ceilAfter_ge m (d + d / 2) ltac:(lia)). lia.
        -- eapply List.Forall_impl; [|exact Hall]. simpl. intros x Hx.
           rewrite Hexact in Hx. lia.
      * change (retry.delays source (S k)
                  (retry.nextDelay d (source k mod d)) (S m))
          with (retry.nextDelay d (source k mod d)
                :: retry.delays source (S (S k))
                     (retry.nextDelay (retry.nextDelay d (source k mod d))
                        (source (S k) mod retry.nextDelay d (source k mod d))) m)
          in Hnd |- *.
        change (retry.nondecreasing (d :: ?x :: ?l))
          with ((d <=? x) && retry.nondecreasing (x :: l))%bool.
        rewrite Hnd, Hexact.
        destruct (Z.leb_spec d (d + Z.quot (source k mod d) 2)); [reflexivity|lia].
Qed.

Lemma ceilAfter_le_mono (m n : nat) (d : Z) :
  0 <= d -> (m <= n)%nat -> retry.ceilAfter m d <= retry.ceilAfter n d.
Proof.
  intros Hd Hmn. induction Hmn as [|n Hmn IH]; [lia|].
  pose proof (ceilAfter_S n d Hd). lia.
Qed.

(** A positive delay whose growth over [m - 1] updates fits [int64]
    keeps [m] jitter computations away from the panic. *)
Lemma delays_positive m k d :
  0 < d -> retry.ceilAfter (m - 1) d <= Int64.maxInt64 ->
  retry.allPositive (retry.delays source k d m) = true.
Proof.
  intros Hd Hmax. apply allPositive_Forall. destruct m as [|m]; [constructor|].
  replace (S m - 1)%nat with m in Hmax by lia.
  destruct (delays_in_range m k d Hd Hmax) as [Hall _].
  eapply List.Forall_impl; [|exact Hall]. simpl. intros x Hx. lia.
Qed.

Lemma delays_nondecreasing m k d :
  0 < d -> retry.ceilAfter (m - 1) d <= Int64.maxInt64 ->
  retry.nondecreasing (retry.delays source k d m) = true.
Proof.
  intros Hd Hmax. destruct m as [|m]; [reflexivity|].
  replace (S m - 1)%nat with m in Hmax by lia.
  apply (delays_in_range m k d Hd Hmax).
Qed.

(** Delays that stay strictly positive have not wrapped around, and so
    never decrease. *)
Lemma positive_delays_nondecreasing m : forall k d,
  d <= Int64.maxInt64 ->
  Forall (Z.lt 0) (retry.delays source k d m) ->
  retry.nondecreasing (retry.delays source k d m) = true.
Proof.
  induction m as [|m IH]; intros k d Hmax Hpos; [reflexivity|].
  destruct m as [|m]; [reflexivity|].
  change (retry.delays source k d (S (S m)))
    with (d :: retry.delays source (S k)
                 (retry.nextDelay d (source k mod d)) (S m)) in Hpos |- *.
  inversion Hpos as [|x l Hd Hrest]; subst.
  specialize (IH (S k) (retry.nextDelay d (source k mod d))).
  change (retry.delays source (S k)
            (retry.nextDelay d (source k mod d)) (S m))
    with (retry.nextDelay d (source k mod d)
          :: retry.delays source (S (S k))
               (retry.nextDelay (retry.nextDelay d (source k mod d))
                  (source (S k) mod retry.nextDelay d (source k mod d))) m)
    in Hrest, IH |- *.
  change (retry.nondecreasing (d :: ?x :: ?l))
    with ((d <=? x) && retry.nondecreasing (x :: l))%bool.
  inversion Hrest as [|x l Hd1 _]; subst.
  pose proof (Z.mod_pos_bound (source k) d Hd) as Hj.
  destruct (half_bounds _ _ Hj) as (Hq0 & Hq1 & Hq2).
  rewrite IH.
  - destruct (Z_le_gt_dec (d + Z.quot (source k mod d) 2) Int64.maxInt64)
      as [Hfit|Hwrap].
    + rewrite nextDelay_exact by assumption.
      destruct (Z.leb_spec d (d + Z.quot (source k mod d) 2));
        [reflexivity|lia].
    + pose proof (nextDelay_wrapped d (source k mod d) Hj Hmax ltac:(lia)). lia.
  - apply wrap_bounds.
  - exact Hrest.
Qed.

(** The loop at a boundary where the signal is set. *)
Lemma loop_cancelled r d result err w :
  ctxDone (retry.polls w) = true ->
  retry.loop f ctxDone source (S r) d result err w =
  (retry.Returned None (Some retry.RetryCancellationErr), retry.poll w).
Proof. intros H. simpl. rewrite H. reflexivity. Qed.

(** The loop at an attempt that succeeds. *)
Lemma loop_succeeded r d result err w :
  ctxDone (retry.polls w) = false ->
  snd (f (retry.calls w)) = None ->
  retry.loop f ctxDone source (S r) d result err w =
  (retry.Returned (fst (f (retry.calls w))) None,
   retry.mkWorld (S (retry.calls w)) (S (retry.polls w)) (retry.draws w)
                 (retry.slept w)).
Proof.
  intros Hdone Hok. simpl. rewrite Hdone.
  destruct (f (retry.calls w)) as [res' [e|]]; simpl in *; [congruence|].
  reflexivity.
Qed.

(** [m] failed attempts from the start of [Retry]. *)
Lemma Retry_failed m r delay :
  (forall i, (i < m)%nat -> ctxDone i = false) ->
  (forall i, (i < m)%nat -> snd (f i) <> None) ->
  retry.allPositive (retry.delays source 0 delay m) = true ->
  m <> 0%nat ->
  retry.Retry f ctxDone source (m + r) delay =
  retry.loop f ctxDone source r (retry.delayAfter source 0 delay m)
    (fst (f (m - 1)%nat)) (snd (f (m - 1)%nat))
    (retry.mkWorld m m m (retry.delays source 0 delay m)).
Proof.
  intros Hdone Hfail Hpos Hm. destruct m as [|m]; [congruence|].
  unfold retry.Retry. rewrite loop_failed.
  - simpl retry.calls. simpl retry.polls. simpl retry.draws. simpl retry.slept.
    replace (S m - 1)%nat with m by lia. reflexivity.
  - intros i Hi. apply Hdone. simpl. lia.
  - intros i Hi. apply Hfail. simpl. lia.
  - apply allPositive_Forall. exact Hpos.
Qed.

End RetryFacts.

(** Closes a goal saying that a call which returned did not panic. *)
Ltac returned := let H := fresh in intros H; simpl in H; discriminate H.

Section RetryClaims.

Context {A : Type}.
Variable f : nat -> option A * option retry.error.
Variable ctxDone : nat -> bool.
Variable source : nat -> Z.

(** C5 (amended). For every [attempts >= 1] and every operation that
    returns an error on attempts [1..k-1] and a non-error result on
    attempt [k <= attempts], with no cancellation signalled, and provided
    every delay handed to the jitter computation is strictly positive,
    [Retry] invokes the operation exactly [k] times and returns the result
    of attempt [k] with a nil error. *)
Theorem Retry_returns_first_success (attempts : nat) (delay : Z) (k : nat) :
  (1 <= k <= attempts)%nat ->
  (forall i, (i < k)%nat -> ctxDone i = false) ->
  (forall i, (i < k - 1)%nat -> snd (f i) <> None) ->
  snd (f (k - 1)%nat) = None ->
  retry.allPositive (retry.delays source 0 delay (k - 1)) = true ->
  retry.Retry f ctxDone source attempts delay =
  (retry.Returned (fst (f (k - 1)%nat)) None,
   retry.mkWorld k k (k - 1) (retry.delays source 0 delay (k - 1))).
Proof.
  intros [Hk1 Hka] Hdone Hfail Hok Hpos.
  destruct (Nat.eq_dec k 1%nat) as [->|Hk].
  - destruct attempts as [|r]; [lia|].
    unfold retry.Retry. rewrite loop_succeeded.
    + reflexivity.
    + apply (Hdone 0%nat). lia.
    + exact Hok.
  - replace attempts with ((k - 1) + S (attempts - k))%nat by lia.
    rewrite Retry_failed; try assumption; try lia.
    + rewrite loop_succeeded; simpl retry.calls; simpl retry.polls.
      * simpl retry.draws. simpl retry.slept.
        replace (S (k - 1)) with k by lia. reflexivity.
      * apply Hdone. lia.
      * exact Hok.
    + intros i Hi. apply Hdone. lia.
Qed.

(** C6. If the signal is set before the first attempt, [Retry] never
    invokes the operation, does not sleep and returns the cancellation
    error; and at every boundary before an attempt, a set signal makes
    the loop return the cancellation error with only the poll done: no
    invocation, no sleep, no draw. *)
Theorem Retry_cancelled_before_attempt :
  (forall attempts delay,
     attempts <> 0%nat -> ctxDone 0%nat = true ->
     retry.Retry f ctxDone source attempts delay =
     (retry.Returned None (Some retry.RetryCancellationErr),
      retry.mkWorld 0 1 0 []))
  /\ (forall r d result err w,
        ctxDone (retry.polls w) = true ->
        retry.loop f ctxDone source (S r) d result err w =
        (retry.Returned None (Some retry.RetryCancellationErr),
         retry.mkWorld (retry.calls w) (S (retry.polls w)) (retry.draws w)
                       (retry.slept w)))
  /\ retry.IsRetryCancelledError (Some retry.RetryCancellationErr) = true.
Proof.
  split; [|split].
  - intros attempts delay Ha Hdone. destruct attempts as [|r]; [congruence|].
    unfold retry.Retry. rewrite loop_cancelled by exact Hdone. reflexivity.
  - intros r d result err w Hdone. rewrite loop_cancelled by exact Hdone.
    reflexivity.
  - reflexivity.
Qed.

(** C7 (amended). When every one of the [attempts >= 1] attempts returns
    an error, no cancellation occurs and every delay handed to the jitter
    computation is strictly positive, [Retry] returns exactly the pair of
    the final attempt; and with [attempts = 0] it performs no attempt and
    returns [(nil, nil)]. *)
Theorem Retry_exhausted_returns_last :
  (forall attempts delay,
     attempts <> 0%nat ->
     (forall i, (i < attempts)%nat -> ctxDone i = false) ->
     (forall i, (i < attempts)%nat -> snd (f i) <> None) ->
     retry.allPositive (retry.delays source 0 delay attempts) = true ->
     retry.Retry f ctxDone source attempts delay =
     (retry.Returned (fst (f (attempts - 1)%nat)) (snd (f (attempts - 1)%nat)),
      retry.mkWorld attempts attempts attempts
                    (retry.delays source 0 delay attempts)))
  /\ (forall delay,
        retry.Retry f ctxDone source 0 delay =
        (retry.Returned None None, retry.start)).
Proof.
  split.
  - intros attempts delay Ha Hdone Hfail Hpos.
    replace attempts with (attempts + 0)%nat at 1 by lia.
    rewrite Retry_failed by assumption. reflexivity.
  - intros delay. reflexivity.
Qed.

(** With a positive delay whose growth fits [int64], no path through the
    loop panics. *)
Lemma loop_no_panic r : forall d result err w msg,
  0 < d -> retry.ceilAfter (r - 1) d <= Int64.maxInt64 ->
  fst (retry.loop f ctxDone source r d result err w) <> retry.Panicked msg.
Proof.
  induction r as [|r IH]; intros d result err w msg Hd Hmax; [returned|].
  simpl. destruct (ctxDone (retry.polls w)); [returned|].
  destruct (f (retry.calls w)) as [res' [e|]]; [|returned].
  unfold retry.Int63n. destruct (Z.leb_spec d 0); [lia|].
  destruct r as [|r]; [returned|].
  replace (S (S r) - 1)%nat with (S r) in Hmax by lia. simpl in Hmax.
  set (j := source _ mod d).
  assert (Hj : 0 <= j < d) by (apply Z.mod_pos_bound; lia).
  destruct (half_bounds _ _ Hj) as (Hq0 & Hq1 & Hq2).
  assert (Hhalf : 0 <= d / 2) by (apply Z.div_pos; lia).
  pose proof (ceilAfter_ge r (d + d / 2) ltac:(lia)) as Hc.
  assert (Hexact : retry.nextDelay d j = d + Z.quot j 2)
    by (apply nextDelay_exact; lia).
  apply IH.
  - rewrite Hexact. lia.
  - replace (S r - 1)%nat with r by lia. rewrite Hexact.
    pose proof (ceilAfter_mono r (d + Z.quot j 2) (d + d / 2) ltac:(lia)). lia.
Qed.

(** C10 (amended). With a zero delay, [attempts >= 1], no cancellation
    and a first invocation that returns an error, the jitter computation
    panics and [Retry] does not return; with a strictly positive delay
    whose growth over [attempts - 1] updates fits [int64], the panic is
    unreachable. *)
Theorem Retry_panics_only_without_positive_delay :
  (forall attempts,
     attempts <> 0%nat -> ctxDone 0%nat = false -> snd (f 0%nat) <> None ->
     retry.Retry f ctxDone source attempts 0 =
     (retry.Panicked "invalid argument to Int63n", retry.mkWorld 1 1 0 [0]))
  /\ (forall attempts delay msg,
        0 < delay ->
        retry.ceilAfter (attempts - 1) delay <= Int64.maxInt64 ->
        fst (retry.Retry f ctxDone source attempts delay)
        <> retry.Panicked msg).
Proof.
  split.
  - intros attempts Ha Hdone Hfail. destruct attempts as [|r]; [congruence|].
    unfold retry.Retry. simpl. rewrite Hdone.
    destruct (f 0%nat) as [res' [e|]]; simpl in *; [reflexivity|congruence].
  - intros attempts delay msg Hd Hmax. unfold retry.Retry.
    apply loop_no_panic; assumption.
Qed.

(** Whatever the attempts do, the delays slept are those of
    consecutive failed attempts. *)
Lemma loop_slept r : forall d result err w,
  exists m, (m <= r)%nat /\
    retry.slept (snd (retry.loop f ctxDone source r d result err w)) =
    retry.slept w ++ retry.delays source (retry.draws w) d m.
Proof.
  induction r as [|r IH]; intros d result err w.
  - exists 0%nat. simpl. rewrite app_nil_r. split; [lia|reflexivity].
  - simpl. destruct (ctxDone (retry.polls w)).
    { exists 0%nat. simpl. rewrite app_nil_r. split; [lia|reflexivity]. }
    destruct (f (retry.calls w)) as [res' [e|]].
    2:{ exists 0%nat. simpl. rewrite app_nil_r. split; [lia|reflexivity]. }
    unfold retry.Int63n. simpl retry.draws. destruct (d <=? 0).
    { exists 1%nat. simpl. split; [lia|reflexivity]. }
    destruct (IH (retry.nextDelay d (source (retry.draws w) mod d)) res'
                 (Some e)
                 (retry.draw (retry.Sleep d (retry.call (retry.poll w)))))
      as (m & Hm & Heq).
    exists (S m). split; [lia|].
    rewrite Heq. simpl. rewrite <- app_assoc. reflexivity.
Qed.

End RetryClaims.

(** *** Delays that climb past a ceiling *)

Section Climbing.

Variables c d0 : Z.
Hypothesis Hd0 : 3 <= d0 <= c + 1.
Hypothesis Hc : c < Int64.maxInt64.

Lemma climbAt_bounds i : 3 <= samples.climbAt c d0 i <= c + 1.
Proof.
  induction i as [|i IH]; simpl; [lia|].
  assert (1 <= (samples.climbAt c d0 i - 1) / 2)
    by (apply Z.div_le_lower_bound; lia).
  lia.
Qed.

Lemma climbAt_grows i :
  Z.min (d0 + Z.of_nat i) (c + 1) <= samples.climbAt c d0 i.
Proof.
  induction i as [|i IH]; simpl samples.climbAt; [lia|].
  pose proof (climbAt_bounds i).
  assert (1 <= (samples.climbAt c d0 i - 1) / 2)
    by (apply Z.div_le_lower_bound; lia).
  lia.
Qed.

(** One update under the climbing source. *)
Lemma climbing_step i :
  retry.nextDelay (samples.climbAt c d0 i)
    (samples.climbing c d0 i mod samples.climbAt c d0 i)
  = samples.climbAt c d0 (S i).
Proof.
  pose proof (climbAt_bounds i) as Hb. pose proof (climbAt_bounds (S i)) as Hb'.
  unfold samples.climbing.
  set (d := samples.climbAt c d0 i) in *.
  set (d' := samples.climbAt c d0 (S i)) in *.
  assert (Hstep : d' = Z.min (d + (d - 1) / 2) (c + 1)) by reflexivity.
  assert (Hhalf : 1 <= (d - 1) / 2) by (apply Z.div_le_lower_bound; lia).
  assert (Hmul : 2 * ((d - 1) / 2) <= d - 1) by (apply Z.mul_div_le; lia).
  assert (Hj : 0 <= 2 * (d' - d) < d) by lia.
  rewrite Z.mod_small by exact Hj.
  assert (Hq : Z.quot (2 * (d' - d)) 2 = d' - d).
  { rewrite Z.mul_comm. apply Z.quot_mul. lia. }
  rewrite nextDelay_exact; rewrite ?Hq; unfold Int64.maxInt64 in *; lia.
Qed.

Lemma climbing_delays m : forall k,
  retry.delays (samples.climbing c d0) k (samples.climbAt c d0 k) m
  = List.map (samples.climbAt c d0) (seq k m).
Proof.
  induction m as [|m IH]; intros k; [reflexivity|].
  cbn [retry.delays seq List.map]. rewrite climbing_step, IH. reflexivity.
Qed.

End Climbing.

(** *** The delays of one run, step by step *)

Section DelaySteps.

Variable source : nat -> Z.

(** The [i]-th delay of consecutive failed attempts. *)
Lemma delays_lookup m : forall k d i,
  (i < m)%nat ->
  retry.delays source k d m !! i = Some (retry.delayAfter source k d i).
Proof.
  induction m as [|m IH]; intros k d i Hi; [lia|].
  destruct i as [|i]; [reflexivity|].
  cbn [retry.delays retry.delayAfter]. apply (IH (S k)). lia.
Qed.

(** Each delay comes from the one before by the update of the loop, with
    the jitter of the draw made then. *)
Lemma delayAfter_step i : forall k d,
  retry.delayAfter source k d (S i)
  = retry.nextDelay (retry.delayAfter source k d i)
      (source (k + i)%nat mod retry.delayAfter source k d i).
Proof.
  induction i as [|i IH]; intros k d.
  - simpl. rewrite Nat.add_0_r. reflexivity.
  - change (retry.delayAfter source k d (S (S i)))
      with (retry.delayAfter source (S k)
              (retry.nextDelay d (source k mod d)) (S i)).
    rewrite IH. cbn [retry.delayAfter].
    replace (S k + i)%nat with (k + S i)%nat by lia. reflexivity.
Qed.

End DelaySteps.

(** Whatever the attempts do, the delays slept are those of consecutive
    failed attempts, and every delay that was followed by another sleep
    was strictly positive: its jitter was drawn without a panic. *)
Lemma loop_slept_steps {A : Type} (f : nat -> option A * option retry.error)
    (ctxDone : nat -> bool) (source : nat -> Z) r :
  forall d result err w,
  exists m, (m <= r)%nat
    /\ retry.slept (snd (retry.loop f ctxDone source r d result err w))
       = retry.slept w ++ retry.delays source (retry.draws w) d m
    /\ (forall i, (S i < m)%nat ->
          0 < retry.delayAfter source (retry.draws w) d i).
Proof.
  induction r as [|r IH]; intros d result err w.
  - exists 0%nat. simpl. rewrite app_nil_r. repeat split; lia.
  - simpl. destruct (ctxDone (retry.polls w)).
    { exists 0%nat. simpl. rewrite app_nil_r. repeat split; lia. }
    destruct (f (retry.calls w)) as [res' [e|]].
    2:{ exists 0%nat. simpl. rewrite app_nil_r. repeat split; lia. }
    unfold retry.Int63n. simpl retry.draws.
    destruct (Z.leb_spec d 0) as [Hd|Hd].
    { exists 1%nat. simpl. repeat split; lia. }
    destruct (IH (retry.nextDelay d (source (retry.draws w) mod d)) res'
                 (Some e)
                 (retry.draw (retry.Sleep d (retry.call (retry.poll w)))))
      as (m & Hm & Heq & Hpos).
    exists (S m). split; [lia|split].
    + rewrite Heq. simpl. rewrite <- app_assoc. reflexivity.
    + intros i Hi. destruct i as [|i]; [exact Hd|].
      cbn [retry.delayAfter]. apply Hpos. lia.
Qed.

(** C8 (amended). In every invocation of [Retry], whenever a delay [d]
    was slept and another sleep followed, [d] was strictly positive, the
    jitter drawn after it lay in [[0, d)], and the delay slept next is
    [d] plus half of that jitter, a nonnegative amount strictly less than
    half of [d], the sum being exact while it fits [int64]; the delays
    slept in one invocation never decrease as long as they stay strictly
    positive, that is, as long as no sum has wrapped around, which a
    positive delay whose growth over the attempts fits [int64]
    guarantees; and no ceiling below the [int64] maximum is enforced:
    from any initial delay of at least 3 the delays slept can pass any
    such ceiling. *)
Theorem Retry_delay_grows_by_jitter :
  (forall (A : Type) (f : nat -> option A * option retry.error)
          (ctxDone : nat -> bool) (source : nat -> Z)
          (attempts : nat) (delay : Z) (i : nat) (d d' : Z),
     retry.slept (snd (retry.Retry f ctxDone source attempts delay)) !! i
     = Some d ->
     retry.slept (snd (retry.Retry f ctxDone source attempts delay)) !! S i
     = Some d' ->
     0 < d
     /\ exists jitter,
          (forall w, retry.draws w = i ->
             retry.Int63n source w d = Some jitter)
          /\ 0 <= jitter < d
          /\ d' = retry.nextDelay d jitter
          /\ 0 <= Z.quot jitter 2 /\ 2 * Z.quot jitter 2 < d
          /\ (d + Z.quot jitter 2 <= Int64.maxInt64 ->
              d' = d + Z.quot jitter 2 /\ d <= d'))
  /\
  (forall (source : nat -> Z) (w : retry.World) (d : Z),
     0 < d ->
     exists jitter,
       retry.Int63n source w d = Some jitter
       /\ 0 <= jitter < d
       /\ 0 <= Z.quot jitter 2 /\ 2 * Z.quot jitter 2 < d
       /\ (d + Z.quot jitter 2 <= Int64.maxInt64 ->
           retry.nextDelay d jitter = d + Z.quot jitter 2
           /\ d <= retry.nextDelay d jitter))
  /\ (forall (A : Type) (f : nat -> option A * option retry.error)
             (ctxDone : nat -> bool) (source : nat -> Z)
             (attempts : nat) (delay : Z),
        delay <= Int64.maxInt64 ->
        retry.allPositive
          (retry.slept (snd (retry.Retry f ctxDone source attempts delay)))
        = true ->
        retry.nondecreasing
          (retry.slept (snd (retry.Retry f ctxDone source attempts delay)))
        = true)
  /\ (forall (A : Type) (f : nat -> option A * option retry.error)
             (ctxDone : nat -> bool) (source : nat -> Z)
             (attempts : nat) (delay : Z),
        0 < delay ->
        retry.ceilAfter (attempts - 1) delay <= Int64.maxInt64 ->
        retry.nondecreasing
          (retry.slept (snd (retry.Retry f ctxDone source attempts delay)))
        = true)
  /\ (forall (A : Type) (f : nat -> option A * option retry.error)
             (c d0 : Z),
        3 <= d0 -> c < Int64.maxInt64 ->
        (forall i, snd (f i) <> None) ->
        exists source attempts result err w d,
          retry.Retry f samples.never source attempts d0
          = (retry.Returned result err, w)
          /\ In d (retry.slept w) /\ c < d).
Proof.
  split; [|split; [|split; [|split]]].
  - intros A f ctxDone source attempts delay i d d' Hi HSi.
    destruct (loop_slept_steps f ctxDone source attempts delay None None
                retry.start) as (m & _ & Heq & Hpos).
    unfold retry.Retry in Hi, HSi. rewrite Heq in Hi, HSi.
    simpl in Hi, HSi, Hpos.
    assert (Hm : (S i < m)%nat).
    { apply lookup_lt_Some in HSi. rewrite delays_length in HSi. exact HSi. }
    rewrite delays_lookup in Hi by lia. rewrite delays_lookup in HSi by lia.
    rewrite delayAfter_step in HSi. simpl in HSi.
    specialize (Hpos i Hm).
    injection Hi as Hd. rewrite Hd in HSi, Hpos. injection HSi as Hd'.
    split; [exact Hpos|]. exists (source i mod d).
    pose proof (Z.mod_pos_bound (source i) d Hpos) as Hj.
    destruct (half_bounds _ _ Hj) as (Hq0 & Hq1 & Hq2).
    split; [|split; [exact Hj|split; [symmetry; exact Hd'|
            split; [exact Hq0|split; [exact Hq1|]]]]].
    + intros w Hw. unfold retry.Int63n. rewrite Hw.
      destruct (Z.leb_spec d 0); [lia|reflexivity].
    + intros Hfit. rewrite <- Hd', nextDelay_exact by assumption. lia.
  - intros source w d Hd. exists (source (retry.draws w) mod d).
    pose proof (Z.mod_pos_bound (source (retry.draws w)) d Hd) as Hj.
    destruct (half_bounds _ _ Hj) as (Hq0 & Hq1 & Hq2).
    unfold retry.Int63n. destruct (Z.leb_spec d 0); [lia|].
    repeat split; try lia.
    + apply nextDelay_exact; assumption.
    + rewrite nextDelay_exact by assumption. lia.
  - intros A f ctxDone source attempts delay Hmax.
    destruct (loop_slept f ctxDone source attempts delay None None retry.start)
      as (m & Hm & Heq).
    unfold retry.Retry. rewrite Heq. simpl. intros Hpos.
    apply positive_delays_nondecreasing; [exact Hmax|].
    apply allPositive_Forall. exact Hpos.
  - intros A f ctxDone source attempts delay Hd Hmax.
    destruct (loop_slept f ctxDone source attempts delay None None retry.start)
      as (m & Hm & Heq).
    unfold retry.Retry. rewrite Heq. simpl.
    apply delays_nondecreasing; [exact Hd|].
    pose proof (ceilAfter_le_mono (m - 1) (attempts - 1) delay
                  ltac:(lia) ltac:(lia)). lia.
  - intros A f c d0 Hd0 Hc Hfail.
    destruct (Z_le_gt_dec d0 c) as [Hle|Hgt].
    + set (n := Z.to_nat (c + 1 - d0)).
      exists (samples.climbing c d0), (S n), (fst (f n)), (snd (f n)),
        (retry.mkWorld (S n) (S n) (S n)
           (List.map (samples.climbAt c d0) (seq 0 (S n)))),
        (samples.climbAt c d0 n).
      assert (Hdel : retry.delays (samples.climbing c d0) 0 d0 (S n)
                     = List.map (samples.climbAt c d0) (seq 0 (S n))).
      { apply (climbing_delays c d0 ltac:(lia) Hc (S n) 0%nat). }
      split; [|split].
      * replace (S n) with (S n + 0)%nat at 1 by lia.
        rewrite Retry_failed.
        -- rewrite Hdel. replace (S n - 1)%nat with n by lia. reflexivity.
        -- reflexivity.
        -- intros i _. apply Hfail.
        -- rewrite Hdel. apply allPositive_Forall, List.Forall_forall.
           intros x Hx. apply in_map_iff in Hx as (i & <- & _).
           pose proof (climbAt_bounds c d0 ltac:(lia) i). lia.
        -- lia.
      * apply (in_map (samples.climbAt c d0) (seq 0 (S n)) n), in_seq. lia.
      * pose proof (climbAt_grows c d0 ltac:(lia) n) as Hg.
        assert (Z.of_nat n = c + 1 - d0) by (unfold n; lia). lia.
    + exists (samples.constant 0), 1%nat, (fst (f 0%nat)), (snd (f 0%nat)),
        (retry.mkWorld 1 1 1 [d0]), d0.
      split; [|split].
      * change 1%nat with (1 + 0)%nat at 1. rewrite Retry_failed.
        -- reflexivity.
        -- reflexivity.
        -- intros i _. apply Hfail.
        -- simpl. destruct (Z.ltb_spec 0 d0); [reflexivity|lia].
        -- lia.
      * simpl. left. reflexivity.
      * lia.
Qed.

(** *** Instances and counterexamples for the retry executor *)

(** Two failures, then success on the third of five attempts. *)
Lemma Retry_returns_first_success_witness :
  retry.Retry (samples.failsThenReturns 2 "ok") samples.never
              (samples.constant 7) 5 1000
  = (retry.Returned (Some "ok"%string) None,
     retry.mkWorld 3 3 2 [1000; 1003]).
Proof.
  apply (Retry_returns_first_success (samples.failsThenReturns 2 "ok")
           samples.never (samples.constant 7) 5 1000 3).
  - lia.
  - intros i Hi. reflexivity.
  - intros i Hi. destruct i as [|[|i]]; simpl; [congruence|congruence|lia].
  - reflexivity.
  - reflexivity.
Defined.

(** C5 as stated fails in two runs in which the operation succeeds on an
    attempt within the budget and nothing is cancelled. At the top of
    [int64] the sum [d + jitter/2] wraps around to a negative delay and
    the jitter computation of the second failed attempt panics before the
    third attempt; with a zero delay the first jitter computation panics
    before the second attempt. *)
Lemma Retry_panics_before_success :
  (snd (samples.failsThenReturns 2 "ok" 2%nat) = None
   /\ retry.Retry (samples.failsThenReturns 2 "ok") samples.never
                  samples.large 3 Int64.maxInt64
      = (retry.Panicked "invalid argument to Int63n",
         retry.mkWorld 2 2 1 [9223372036854775807; -4611686018427387906])
   /\ (forall w,
         retry.Retry (samples.failsThenReturns 2 "ok") samples.never
                     samples.large 3 Int64.maxInt64
         <> (retry.Returned (fst (samples.failsThenReturns 2 "ok" 2%nat)) None,
             w)))
  /\ (snd (samples.failsThenReturns 1 "ok" 1%nat) = None
      /\ retry.Retry (samples.failsThenReturns 1 "ok") samples.never
                     (samples.constant 7) 2 0
         = (retry.Panicked "invalid argument to Int63n",
            retry.mkWorld 1 1 0 [0])
      /\ (forall w,
            retry.Retry (samples.failsThenReturns 1 "ok") samples.never
                        (samples.constant 7) 2 0
            <> (retry.Returned (fst (samples.failsThenReturns 1 "ok" 1%nat))
                               None, w))).
Proof.
  split; (split; [reflexivity|split; [vm_compute; reflexivity|]]);
    intros w H; vm_compute in H; discriminate H.
Qed.

(** Cancelled before the first attempt, and cancelled at the boundary
    after one failed attempt. *)
Lemma Retry_cancelled_before_attempt_witness :
  retry.Retry (samples.failsThenReturns 0 "ok") (samples.cancelledFrom 0)
              (samples.constant 7) 3 1000
  = (retry.Returned None (Some retry.RetryCancellationErr),
     retry.mkWorld 0 1 0 [])
  /\ retry.loop (samples.failsThenReturns 5 "ok") (samples.cancelledFrom 1)
                (samples.constant 7) 2 1003 None (Some "connection refused"%string)
                (retry.mkWorld 1 1 1 [1000])
     = (retry.Returned None (Some retry.RetryCancellationErr),
        retry.mkWorld 1 2 1 [1000]).
Proof.
  destruct (Retry_cancelled_before_attempt (samples.failsThenReturns 0 "ok")
              (samples.cancelledFrom 0) (samples.constant 7)) as (H1 & _ & _).
  destruct (Retry_cancelled_before_attempt (samples.failsThenReturns 5 "ok")
              (samples.cancelledFrom 1) (samples.constant 7)) as (_ & H2 & _).
  split.
  - apply H1; [lia|reflexivity].
  - apply (H2 1%nat 1003 None (Some "connection refused"%string)
              (retry.mkWorld 1 1 1 [1000])). reflexivity.
Defined.

(** Three failed attempts out of three. *)
Lemma Retry_exhausted_returns_last_witness :
  retry.Retry samples.alwaysFails samples.never (samples.constant 7) 3 1000
  = (retry.Returned (Some "partial"%string) (Some "later"%string),
     retry.mkWorld 3 3 3 [1000; 1003; 1006])
  /\ retry.Retry samples.alwaysFails (samples.cancelledFrom 0)
                 (samples.constant 7) 0 1000
     = (retry.Returned None None, retry.start).
Proof.
  destruct (Retry_exhausted_returns_last samples.alwaysFails samples.never
              (samples.constant 7)) as [H1 _].
  destruct (Retry_exhausted_returns_last samples.alwaysFails
              (samples.cancelledFrom 0) (samples.constant 7)) as [_ H2].
  split.
  - apply (H1 3%nat 1000).
    + lia.
    + intros i Hi. reflexivity.
    + intros i Hi. simpl. congruence.
    + reflexivity.
  - apply H2.
Defined.

(** C7 as stated fails in two runs in which every attempt returns an
    error and nothing is cancelled. At the top of [int64] the sum
    [d + jitter/2] wraps around to a negative delay and the jitter
    computation of the second of two attempts panics; with a zero delay
    the jitter computation of the single attempt panics. In neither run
    does [Retry] return the pair of the final attempt. *)
Lemma Retry_panics_instead_of_last_pair :
  (retry.Retry samples.alwaysFails samples.never samples.large
               2 Int64.maxInt64
   = (retry.Panicked "invalid argument to Int63n",
      retry.mkWorld 2 2 1 [9223372036854775807; -4611686018427387906])
   /\ (forall w,
         retry.Retry samples.alwaysFails samples.never samples.large
                     2 Int64.maxInt64
         <> (retry.Returned (fst (samples.alwaysFails 1%nat))
                            (snd (samples.alwaysFails 1%nat)), w)))
  /\ (retry.Retry samples.alwaysFails samples.never (samples.constant 7) 1 0
      = (retry.Panicked "invalid argument to Int63n", retry.mkWorld 1 1 0 [0])
      /\ (forall w,
            retry.Retry samples.alwaysFails samples.never (samples.constant 7)
                        1 0
            <> (retry.Returned (fst (samples.alwaysFails 0%nat))
                               (snd (samples.alwaysFails 0%nat)), w))).
Proof.
  split; (split; [vm_compute; reflexivity|]);
    intros w H; vm_compute in H; discriminate H.
Qed.

(** A zero delay panics; a delay of 1000ns over three attempts cannot. *)
Lemma Retry_panics_only_without_positive_delay_witness :
  retry.Retry samples.alwaysFails samples.never (samples.constant 7) 3 0
  = (retry.Panicked "invalid argument to Int63n", retry.mkWorld 1 1 0 [0])
  /\ fst (retry.Retry samples.alwaysFails samples.never (samples.constant 7)
                      3 1000)
     <> retry.Panicked "invalid argument to Int63n".
Proof.
  destruct (Retry_panics_only_without_positive_delay samples.alwaysFails
              samples.never (samples.constant 7)) as [H1 H2].
  split.
  - apply H1; [lia|reflexivity|simpl; congruence].
  - apply H2; [lia|vm_compute; congruence].
Defined.

(** C10 as stated fails at the top of [int64]: the delay is strictly
    positive, the sum [d + jitter/2] wraps around to a negative delay, and
    the jitter computation of the second failed attempt panics. *)
Lemma Retry_positive_delay_panics_after_wrap :
  0 < Int64.maxInt64
  /\ retry.Retry samples.alwaysFails samples.never samples.large
                 2 Int64.maxInt64
     = (retry.Panicked "invalid argument to Int63n",
        retry.mkWorld 2 2 1 [9223372036854775807; -4611686018427387906]).
Proof. split; [reflexivity|vm_compute; reflexivity]. Qed.

(** C8 as stated fails at the top of [int64]: after the first failed
    attempt a jitter of [[0, d)] is halved and added, the sum wraps
    around, and the delays slept decrease. *)
Lemma Retry_delays_decrease_after_wrap :
  retry.slept (snd (retry.Retry samples.alwaysFails samples.never
                                samples.large 2 Int64.maxInt64))
  = [9223372036854775807; -4611686018427387906]
  /\ retry.nondecreasing
       (retry.slept (snd (retry.Retry samples.alwaysFails samples.never
                                      samples.large 2 Int64.maxInt64)))
     = false.
Proof. split; vm_compute; reflexivity. Qed.

(** A run of three failed attempts from 1000ns with draws of 900: the
    second delay is the first plus half of the jitter; then one update
    from 1000ns, runs whose delays stay positive and never decrease, and
    delays that pass a ceiling of 5000ns. *)
Lemma Retry_delay_grows_by_jitter_witness :
  (retry.slept (snd (retry.Retry samples.alwaysFails samples.never
                                 (samples.constant 900) 3 1000))
   = [1000; 1450; 1900]
   /\ 0 < 1000
   /\ exists jitter,
        (forall w, retry.draws w = 0%nat ->
           retry.Int63n (samples.constant 900) w 1000 = Some jitter)
        /\ 0 <= jitter < 1000
        /\ 1450 = retry.nextDelay 1000 jitter
        /\ 0 <= Z.quot jitter 2 /\ 2 * Z.quot jitter 2 < 1000
        /\ (1000 + Z.quot jitter 2 <= Int64.maxInt64 ->
            1450 = 1000 + Z.quot jitter 2 /\ 1000 <= 1450))
  /\ (exists jitter,
        retry.Int63n (samples.constant 7) retry.start 1000 = Some jitter
        /\ 0 <= jitter < 1000
        /\ 0 <= Z.quot jitter 2 /\ 2 * Z.quot jitter 2 < 1000
        /\ (1000 + Z.quot jitter 2 <= Int64.maxInt64 ->
            retry.nextDelay 1000 jitter = 1000 + Z.quot jitter 2
            /\ 1000 <= retry.nextDelay 1000 jitter))
  /\ retry.nondecreasing
       (retry.slept (snd (retry.Retry samples.alwaysFails samples.never
                                      (samples.constant 7) 3 1000)))
     = true
  /\ retry.nondecreasing
       (retry.slept (snd (retry.Retry samples.alwaysFails samples.never
                                      (samples.constant 900) 4 1000)))
     = true
  /\ (exists source attempts result err w d,
        retry.Retry samples.alwaysFails samples.never source attempts 1000
        = (retry.Returned result err, w)
        /\ In d (retry.slept w) /\ 5000 < d).
Proof.
  destruct Retry_delay_grows_by_jitter as (H0 & H1 & H2 & H3 & H4).
  split; [|split; [|split; [|split]]].
  - split; [vm_compute; reflexivity|].
    apply (H0 string samples.alwaysFails samples.never
              (samples.constant 900) 3%nat 1000 0%nat 1000 1450);
      vm_compute; reflexivity.
  - apply H1. lia.
  - apply H2; [vm_compute; congruence|vm_compute; reflexivity].
  - apply H3; [lia|vm_compute; congruence].
  - apply H4; [lia|reflexivity|].
    intros i. simpl. congruence.
Defined.

(** ** Properties of the query context *)

Section Decoding.

(** A field of a generically decoded object is itself generically
    decoded. *)
Lemma generic_fields_lookup fields : forall (m : gmap string prom.value) k v,
  fold_left (fun m kv => <[fst kv := prom.generic (snd kv)]> m) fields m !! k
  = Some v ->
  m !! k = Some v \/ exists j, v = prom.generic j.
Proof.
  induction fields as [|[k' j'] fields IH]; intros m k v H; simpl in H.
  - left. exact H.
  - apply IH in H as [H|H]; [|right; exact H].
    destruct (decide (k' = k)) as [->|Hne].
    + rewrite lookup_insert_eq in H. right. exists j'. congruence.
    + rewrite lookup_insert_ne in H by exact Hne. left. exact H.
Qed.

(** No generically decoded value is a [[]string]. *)
Lemma generic_not_strings j l : prom.generic j <> prom.VStrings l.
Proof. destruct j; discriminate. Qed.

(** The type assertion of [warningsFrom] never succeeds on a decoded
    body: its arrays are [[]interface{}]. *)
Lemma warningsFrom_generic doc : prom.warningsFrom (prom.generic doc) = [].
Proof.
  destruct doc; try reflexivity.
  cbn [prom.generic prom.warningsFrom].
  destruct (_ !! "warnings"%string) as [v|] eqn:Hv; [|reflexivity].
  apply generic_fields_lookup in Hv as [Hv|[j ->]].
  - rewrite lookup_empty in Hv. discriminate Hv.
  - pose proof (generic_not_strings j) as Hj.
    destruct (prom.generic j); try reflexivity. exfalso. eapply Hj. reflexivity.
Qed.

(** Had the warnings arrived as a [[]string], they would be extracted
    and a store-API warning among them would become an error. *)
Lemma warningsFrom_strings (m : gmap string prom.value) ws :
  m !! "warnings"%string = Some (prom.VStrings ws) ->
  prom.warningsFrom (prom.VMap m) = ws.
Proof. intros H. simpl. rewrite H. reflexivity. Qed.

Lemma rangeWarnings_escalates E body q ws w :
  In w ws -> prom.IsNoStoreAPIWarning E w = true ->
  fst (prom.rangeWarnings E body q ws) <> None.
Proof.
  induction ws as [|w' ws IH]; intros Hin Hw; [destruct Hin|].
  simpl. destruct (prom.IsNoStoreAPIWarning E w') eqn:Hw'; [discriminate|].
  destruct Hin as [->|Hin]; [congruence|].
  specialize (IH Hin Hw).
  destruct (prom.rangeWarnings E body q ws) as [err logged]. exact IH.
Qed.

End Decoding.

Section QueryFacts.

Variable E : prom.Env.
Variable ctx : prom.Context.

(** A request answered with a success status hands the body over. *)
Lemma RawQuery_success q now req resp body :
  prom.RawQueryRequest E ctx q now = inl req ->
  prom.ClientDo (prom.client ctx) req = (Some resp, body, None) ->
  200 <= prom.StatusCode resp < 300 ->
  prom.RawQuery E ctx q now = prom.Ret (body, None).
Proof.
  intros Hreq Hdo Hst. unfold prom.RawQuery. rewrite Hreq, Hdo.
  destruct (Z.ltb_spec (prom.StatusCode resp) 200); [lia|].
  destruct (Z.leb_spec 300 (prom.StatusCode resp)); [lia|]. reflexivity.
Qed.

(** Whatever warnings a decoded body carries, [query] passes the decoded
    value on with no warning and no error. *)
Lemma query_decoded q now body doc :
  prom.RawQuery E ctx q now = prom.Ret (body, None) ->
  prom.parse E body = inl doc ->
  prom.query E ctx q now = prom.Ret (prom.generic doc, [], None).
Proof.
  intros Hraw Hparse. unfold prom.query, prom.Unmarshal.
  rewrite Hraw, Hparse, warningsFrom_generic. reflexivity.
Qed.

End QueryFacts.

Section QueryClaims.

Variable E : prom.Env.
Variable ctx : prom.Context.

Local Open Scope string_scope.

(** C1, as the code has it. When a body arrives with a success status,
    decodes to an object whose [warnings] array holds a warning [w] that
    matches the store-API pattern, and carries a payload the result
    decoder accepts, [QuerySync] returns the decoded results with no
    warnings and a nil error: the warning is neither extracted nor
    escalated, against the claim. *)
Theorem QuerySync_store_warning_not_escalated
    (q : string) (now : prom.Time E) (req : prom.Request)
    (resp : prom.Response) (body : prom.bytes) (doc : prom.json)
    (m : gmap string prom.value) (ws : list prom.value) (w : string) :
  prom.RawQueryRequest E ctx q now = inl req ->
  prom.ClientDo (prom.client ctx) req = (Some resp, body, None) ->
  (200 <= prom.StatusCode resp < 300)%Z ->
  prom.parse E body = inl doc ->
  prom.generic doc = prom.VMap m ->
  m !! "warnings" = Some (prom.VSlice ws) ->
  In (prom.VString w) ws ->
  prom.IsNoStoreAPIWarning E w = true ->
  prom.Error (prom.NewQueryResults E q (prom.VMap m)) = None ->
  prom.QuerySync E ctx q now =
  prom.Ret (prom.Results (prom.NewQueryResults E q (prom.VMap m)), [], None).
Proof.
  intros Hreq Hdo Hst Hparse Hdoc _ _ _ Herr.
  unfold prom.QuerySync.
  rewrite (query_decoded E ctx q now body doc
             (RawQuery_success E ctx q now req resp body Hreq Hdo Hst) Hparse).
  rewrite Hdoc. cbn zeta. rewrite Herr. reflexivity.
Qed.

(** C2, as the code has it. When a body arrives with a success status and
    decodes to an object whose [warnings] array holds the one warning
    [w], which does not match the store-API pattern, and the result
    decoder accepts the payload, [QuerySync] returns the decoded results
    and a nil error but no warning at all, where the claim has exactly
    one. *)
Theorem QuerySync_soft_warning_not_returned
    (q : string) (now : prom.Time E) (req : prom.Request)
    (resp : prom.Response) (body : prom.bytes) (doc : prom.json)
    (m : gmap string prom.value) (w : string) :
  prom.RawQueryRequest E ctx q now = inl req ->
  prom.ClientDo (prom.client ctx) req = (Some resp, body, None) ->
  (200 <= prom.StatusCode resp < 300)%Z ->
  prom.parse E body = inl doc ->
  prom.generic doc = prom.VMap m ->
  m !! "warnings" = Some (prom.VSlice [prom.VString w]) ->
  prom.IsNoStoreAPIWarning E w = false ->
  prom.Error (prom.NewQueryResults E q (prom.VMap m)) = None ->
  forall results warnings err,
    prom.QuerySync E ctx q now = prom.Ret (results, warnings, err) ->
    results = prom.Results (prom.NewQueryResults E q (prom.VMap m))
    /\ length warnings = 0%nat
    /\ err = None.
Proof.
  intros Hreq Hdo Hst Hparse Hdoc _ _ Herr results warnings err.
  unfold prom.QuerySync.
  rewrite (query_decoded E ctx q now body doc
             (RawQuery_success E ctx q now req resp body Hreq Hdo Hst) Hparse).
  rewrite Hdoc. cbn zeta. rewrite Herr. intros H. inversion H. auto.
Qed.

(** C3. Whatever the backend answers, neither [QuerySync] nor
    [QueryRangeSync] returns a non-nil results value together with a
    non-nil error. *)
Theorem Sync_results_exclude_error
    (q : string) (now start end_ : prom.Time E) (step : Z) :
  (forall results warnings err,
     prom.QuerySync E ctx q now = prom.Ret (results, warnings, err) ->
     results = None \/ err = None)
  /\ (forall results warnings err,
        prom.QueryRangeSync E ctx q start end_ step
        = prom.Ret (results, warnings, err) ->
        results = None \/ err = None).
Proof.
  split; intros results warnings err H.
  - unfold prom.QuerySync in H.
    destruct (prom.query E ctx q now) as [[[raw ws] [e|]]|msg];
      [inversion H; left; reflexivity| |discriminate H].
    cbn zeta in H.
    destruct (prom.Error (prom.NewQueryResults E q raw)) as [e|];
      inversion H; [left|right]; reflexivity.
  - unfold prom.QueryRangeSync in H.
    destruct (prom.queryRange E ctx q start end_ step)
      as [[[raw ws] [e|]]|msg];
      [inversion H; left; reflexivity| |discriminate H].
    cbn zeta in H.
    destruct (prom.Error (prom.NewQueryResults E q raw)) as [e|];
      inversion H; [left|right]; reflexivity.
Qed.

(** C4. The [time] parameter of an instant query is "now minus the
    configured offset" when the offset is not zero and the name of the
    context is not the allocation name, and "now" otherwise; the request
    handed to the client carries these parameters, encoded, in its URL.
    The negated offset is the mathematical one for every offset but the
    least [int64]. *)
Theorem RawQuery_time_parameter (query : string) (now : prom.Time E) :
  (prom.promQueryOffset E <> 0%Z ->
   prom.name ctx <> prom.AllocationContextName E ->
   prom.RawQueryValues E ctx query now !! "time"
   = Some [prom.Format E
             (prom.UTC E (prom.Add E now (Int64.neg (prom.promQueryOffset E))))
             prom.RFC3339])
  /\ (prom.promQueryOffset E = 0%Z
      \/ prom.name ctx = prom.AllocationContextName E ->
      prom.RawQueryValues E ctx query now !! "time"
      = Some [prom.Format E (prom.UTC E now) prom.RFC3339])
  /\ (forall req,
        prom.RawQueryRequest E ctx query now = inl req ->
        prom.Target req
        = prom.URLString E
            (prom.mkURL (prom.urlBase (prom.ClientURL (prom.client ctx)
                                                      prom.epQuery))
                        (prom.Encode E (prom.RawQueryValues E ctx query now))))
  /\ ((Int64.minInt64 < prom.promQueryOffset E <= Int64.maxInt64)%Z ->
      Int64.neg (prom.promQueryOffset E) = (- prom.promQueryOffset E)%Z).
Proof.
  split; [|split; [|split]].
  - intros Hoff Hname. unfold prom.RawQueryValues.
    destruct (Z.eqb_spec (prom.promQueryOffset E) 0); [contradiction|].
    destruct (String.eqb_spec (prom.name ctx) (prom.AllocationContextName E));
      [contradiction|].
    simpl. unfold prom.Set_. apply lookup_insert_eq.
  - intros Hcase. unfold prom.RawQueryValues.
    destruct (Z.eqb_spec (prom.promQueryOffset E) 0) as [Hz|Hz]; simpl.
    + unfold prom.Set_. apply lookup_insert_eq.
    + destruct (String.eqb_spec (prom.name ctx) (prom.AllocationContextName E))
        as [Hn|Hn]; simpl.
      * unfold prom.Set_. apply lookup_insert_eq.
      * destruct Hcase; contradiction.
  - intros req Hreq. unfold prom.RawQueryRequest, prom.NewRequest in Hreq.
    destruct (prom.NewRequestError E _ _); [discriminate Hreq|].
    inversion Hreq; subst; clear Hreq.
    destruct (negb (prom.name ctx =? "")%string); reflexivity.
  - intros Hrange. unfold Int64.neg. apply wrap_inRange.
    unfold Int64.minInt64, Int64.maxInt64 in *. lia.
Qed.

(** The parameters of a range query: [start] and [end] in the
    RFC3339Nano layout, [step] as its seconds printed with [FormatFloat]
    in format [f] with 3 decimals. What these library functions print, and
    what parsing them back yields, is outside the package. *)
Lemma RawQueryRange_parameters (query : string) (start end_ : prom.Time E)
    (step : Z) :
  let q := prom.RawQueryRangeValues E ctx query start end_ step in
  q !! "query" = Some [query]
  /\ q !! "start" = Some [prom.Format E start prom.RFC3339Nano]
  /\ q !! "end" = Some [prom.Format E end_ prom.RFC3339Nano]
  /\ q !! "step"
     = Some [prom.FormatFloat E (prom.Seconds E step) "f"%char 3 64].
Proof.
  unfold prom.RawQueryRangeValues, prom.Set_. cbn zeta.
  repeat split; repeat first [apply lookup_insert_eq
                             | rewrite lookup_insert_ne by discriminate].
Qed.

End QueryClaims.

(** *** Instances for the query context *)

(** The mock backend answers [up] with a store-API warning in the body;
    [QuerySync] returns the decoded [data] and no error. *)
Lemma QuerySync_store_warning_not_escalated_witness :
  prom.QuerySync (samples.env 0)
    (prom.NewContext (samples.backend (samples.bodyWith samples.storeWarning)))
    "up" 1700000000
  = prom.Ret (Some [prom.VMap ∅], [], None).
Proof.
  rewrite (QuerySync_store_warning_not_escalated (samples.env 0)
             (prom.NewContext
                (samples.backend (samples.bodyWith samples.storeWarning)))
             "up" 1700000000
             (prom.mkRequest "POST"
                "http://prometheus:9090/api/v1/query?time=1700000000"
                ∅ None (Some "up"%string))
             (prom.mkResponse 200 ∅)
             (samples.bodyWith samples.storeWarning)
             (samples.docWith samples.storeWarning)
             (<["warnings"%string :=
                  prom.VSlice [prom.VString samples.storeWarning]]>
                (<["data"%string := prom.VMap ∅]>
                   (<["status"%string := prom.VString "success"]> ∅)))
             [prom.VString samples.storeWarning] samples.storeWarning).
  - vm_compute. reflexivity.
  - vm_compute. reflexivity.
  - reflexivity.
  - simpl. lia.
  - vm_compute. reflexivity.
  - reflexivity.
  - apply lookup_insert_eq.
  - simpl. left. reflexivity.
  - vm_compute. reflexivity.
  - vm_compute. reflexivity.
Defined.

(** The mock backend answers [up] with the warning [partial response];
    [QuerySync] returns the decoded [data] and does return, but with no
    warning among its values. *)
Lemma QuerySync_soft_warning_not_returned_witness :
  prom.QuerySync (samples.env 0)
    (prom.NewContext
       (samples.backend (samples.bodyWith samples.partialResponse)))
    "up" 1700000000
  = prom.Ret (Some [prom.VMap ∅], [], None)
  /\ Some [prom.VMap ∅]
     = prom.Results
         (prom.NewQueryResults (samples.env 0) "up"
            (prom.generic (samples.docWith samples.partialResponse)))
  /\ length (@nil string) = 0%nat
  /\ @None prom.error = None.
Proof.
  assert (Hrun : prom.QuerySync (samples.env 0)
            (prom.NewContext
               (samples.backend (samples.bodyWith samples.partialResponse)))
            "up" 1700000000
          = prom.Ret (Some [prom.VMap ∅], [], None))
    by (vm_compute; reflexivity).
  split; [exact Hrun|].
  apply (QuerySync_soft_warning_not_returned (samples.env 0)
           (prom.NewContext
              (samples.backend (samples.bodyWith samples.partialResponse)))
           "up" 1700000000
           (prom.mkRequest "POST"
              "http://prometheus:9090/api/v1/query?time=1700000000"
              ∅ None (Some "up"%string))
           (prom.mkResponse 200 ∅)
           (samples.bodyWith samples.partialResponse)
           (samples.docWith samples.partialResponse)
           (<["warnings"%string :=
                prom.VSlice [prom.VString samples.partialResponse]]>
              (<["data"%string := prom.VMap ∅]>
                 (<["status"%string := prom.VString "success"]> ∅)))
           samples.partialResponse).
  - vm_compute. reflexivity.
  - reflexivity.
  - simpl. lia.
  - vm_compute. reflexivity.
  - reflexivity.
  - apply lookup_insert_eq.
  - vm_compute. reflexivity.
  - vm_compute. reflexivity.
  - exact Hrun.
Defined.

(** A run that returns results and no error, and one that returns an
    error and no results (the backend has no JSON to offer). *)
Lemma Sync_results_exclude_error_witness :
  (prom.QuerySync (samples.env 0)
     (prom.NewContext
        (samples.backend (samples.bodyWith samples.partialResponse)))
     "up" 1700000000
   = prom.Ret (Some [prom.VMap ∅], [], None)
   /\ (Some [prom.VMap ∅] = None \/ @None prom.error = None))
  /\ (prom.QueryRangeSync (samples.env 0)
        (prom.NewContext (samples.backend "upstream timed out"))
        "up" 1700000000 1700003600 15000000000
      = prom.Ret (None, [],
                  Some (prom.Errorf
                          ("Unmarshal Error: %s" ++ String "010" "Query: %s")
                          [prom.AStr "invalid character"; prom.AStr "up"]))
      /\ (@None (list prom.value) = None
          \/ Some (prom.Errorf
                     ("Unmarshal Error: %s" ++ String "010" "Query: %s")
                     [prom.AStr "invalid character"; prom.AStr "up"])
             = None)).
Proof.
  split.
  - assert (Hrun : prom.QuerySync (samples.env 0)
              (prom.NewContext
                 (samples.backend (samples.bodyWith samples.partialResponse)))
              "up" 1700000000
            = prom.Ret (Some [prom.VMap ∅], [], None))
      by (vm_compute; reflexivity).
    split; [exact Hrun|].
    exact (proj1 (Sync_results_exclude_error (samples.env 0) _ "up"
                    1700000000 1700000000 1700003600 15000000000)
                 _ _ _ Hrun).
  - assert (Hrun : prom.QueryRangeSync (samples.env 0)
              (prom.NewContext (samples.backend "upstream timed out"))
              "up" 1700000000 1700003600 15000000000
            = prom.Ret (None, [],
                  Some (prom.Errorf
                          ("Unmarshal Error: %s" ++ String "010" "Query: %s")
                          [prom.AStr "invalid character"; prom.AStr "up"])))
      by (vm_compute; reflexivity).
    split; [exact Hrun|].
    exact (proj2 (Sync_results_exclude_error (samples.env 0) _ "up"
                    1700000000 1700000000 1700003600 15000000000)
                 _ _ _ Hrun).
Defined.

(** With an offset of 180 (in the unit of the sample clock) an unnamed
    context asks for [now - 180], the allocation context for [now], and
    with no offset every context asks for [now]. *)
Lemma RawQuery_time_parameter_witness :
  prom.RawQueryValues (samples.env 180)
    (prom.NewContext (samples.backend "")) "up" 1700000000 !! "time"%string
  = Some ["1699999820"%string]
  /\ prom.RawQueryValues (samples.env 180)
       (prom.NewNamedContext (samples.backend "") "allocation")
       "up" 1700000000 !! "time"%string
     = Some ["1700000000"%string]
  /\ prom.RawQueryValues (samples.env 0)
       (prom.NewContext (samples.backend "")) "up" 1700000000 !! "time"%string
     = Some ["1700000000"%string]
  /\ prom.Target
       (prom.mkRequest "POST"
          "http://prometheus:9090/api/v1/query?time=1699999820"
          ∅ None (Some "up"%string))
     = "http://prometheus:9090/api/v1/query?time=1699999820"%string
  /\ Int64.neg 180 = -180.
Proof.
  destruct (RawQuery_time_parameter (samples.env 180)
              (prom.NewContext (samples.backend "")) "up" 1700000000)
    as (H1 & _ & H3 & H4).
  destruct (RawQuery_time_parameter (samples.env 180)
              (prom.NewNamedContext (samples.backend "") "allocation")
              "up" 1700000000) as (_ & H2 & _ & _).
  destruct (RawQuery_time_parameter (samples.env 0)
              (prom.NewContext (samples.backend "")) "up" 1700000000)
    as (_ & H2' & _ & _).
  split; [|split; [|split; [|split]]].
  - apply H1; simpl; [lia|discriminate].
  - apply H2. right. reflexivity.
  - apply H2'. left. reflexivity.
  - apply (H3 (prom.mkRequest "POST"
                 "http://prometheus:9090/api/v1/query?time=1699999820"
                 ∅ None (Some "up"%string))).
    vm_compute. reflexivity.
  - apply H4. simpl. unfold Int64.minInt64, Int64.maxInt64. lia.
Defined.

(** ** Further properties of the retry executor *)

Section RetryBehaviour.

Context {A : Type}.
Variable f : nat -> option A * option retry.error.
Variable ctxDone : nat -> bool.
Variable source : nat -> Z.

(** What passing through the loop adds to the counters. *)
Lemma loop_counts r : forall d result err w,
  let w' := snd (retry.loop f ctxDone source r d result err w) in
  (retry.polls w <= retry.polls w' <= retry.polls w + r)%nat
  /\ (retry.calls w <= retry.calls w')%nat
  /\ (retry.calls w' - retry.calls w <= retry.polls w' - retry.polls w)%nat
  /\ (retry.draws w <= retry.draws w')%nat
  /\ (length (retry.slept w) <= length (retry.slept w'))%nat
  /\ (length (retry.slept w') - length (retry.slept w)
      <= retry.calls w' - retry.calls w)%nat
  /\ (retry.draws w' - retry.draws w
      <= length (retry.slept w') - length (retry.slept w)
      <= S (retry.draws w' - retry.draws w))%nat.
Proof.
  induction r as [|r IH]; intros d result err w; cbn zeta.
  - simpl. lia.
  - simpl. destruct (ctxDone (retry.polls w)); [simpl; lia|].
    destruct (f (retry.calls w)) as [res' [e|]]; [|simpl; lia].
    unfold retry.Int63n. simpl retry.draws.
    destruct (d <=? 0); [simpl; rewrite length_app; simpl; lia|].
    specialize (IH (retry.nextDelay d (source (retry.draws w) mod d)) res'
                   (Some e)
                   (retry.draw (retry.Sleep d (retry.call (retry.poll w))))).
    cbn zeta in IH. simpl in IH. rewrite length_app in IH. simpl in IH. lia.
Qed.

(** Where a pair returned by the loop comes from. *)
Lemma loop_returned r : forall d result0 err0 w result err w',
  retry.loop f ctxDone source r d result0 err0 w
  = (retry.Returned result err, w') ->
  (r = 0%nat /\ result = result0 /\ err = err0 /\ w' = w)
  \/ (result = None /\ err = Some retry.RetryCancellationErr
      /\ (retry.calls w <= retry.calls w')%nat
      /\ (retry.polls w' - retry.polls w
          = S (retry.calls w' - retry.calls w))%nat
      /\ ctxDone (retry.polls w' - 1)%nat = true)
  \/ (err = None /\ (retry.calls w < retry.calls w')%nat
      /\ f (retry.calls w' - 1)%nat = (result, None))
  \/ (r <> 0%nat /\ retry.calls w' = (retry.calls w + r)%nat
      /\ err <> None /\ f (retry.calls w' - 1)%nat = (result, err)).
Proof.
  induction r as [|r IH]; intros d result0 err0 w result err w' H.
  - simpl in H. inversion H; subst. left. auto.
  - simpl in H. destruct (ctxDone (retry.polls w)) eqn:Hdone.
    { inversion H; subst. right. left. simpl. rewrite Nat.sub_0_r.
      repeat split; [lia|lia|exact Hdone]. }
    destruct (f (retry.calls w)) as [res' [e|]] eqn:Hf.
    2:{ inversion H; subst. right. right. left. simpl. rewrite Nat.sub_0_r.
        repeat split; [lia|exact Hf]. }
    unfold retry.Int63n in H. simpl retry.draws in H.
    destruct (d <=? 0); [discriminate H|].
    apply IH in H. simpl in H.
    destruct H as [(Hr & -> & -> & ->)|[(-> & -> & Hc & Hp & Hd)|
                   [(-> & Hc & Hf')|(Hr & Hc & He & Hf')]]].
    + right. right. right. subst r. simpl. rewrite Nat.sub_0_r.
      repeat split; [lia|lia|discriminate|exact Hf].
    + right. left. repeat split; [lia|lia|exact Hd].
    + right. right. left. repeat split; [lia|exact Hf'].
    + right. right. right. repeat split; [lia|lia|exact He|exact Hf'].
Qed.


(** Delays of one and two nanoseconds stay as they are: half of a jitter
    below two is zero. *)
Lemma delays_small m : forall k d,
  1 <= d <= 2 -> retry.delays source k d m = repeat d m.
Proof.
  induction m as [|m IH]; intros k d Hd; [reflexivity|].
  cbn [retry.delays repeat].
  assert (Hj : 0 <= source k mod d < d) by (apply Z.mod_pos_bound; lia).
  assert (Hq : Z.quot (source k mod d) 2 = 0)
    by (apply Z.quot_small; lia).
  assert (Hnext : retry.nextDelay d (source k mod d) = d).
  { rewrite nextDelay_exact; rewrite ?Hq; unfold Int64.maxInt64; lia. }
  rewrite Hnext, IH by exact Hd. reflexivity.
Qed.

End RetryBehaviour.

(** A sum of terms between two bounds lies between the bounds times the
    number of terms. *)
Lemma sum_between (l : list Z) (lo hi : Z) :
  Forall (fun d => lo <= d <= hi) l ->
  Z.of_nat (length l) * lo <= fold_right Z.add 0 l
  /\ fold_right Z.add 0 l <= Z.of_nat (length l) * hi.
Proof.
  induction 1 as [|x l Hx _ IH]; [simpl; lia|].
  cbn [length fold_right]. rewrite Nat2Z.inj_succ, !Z.mul_succ_l. lia.
Qed.

Section RetryExtras.

Context {A : Type}.
Variable f : nat -> option A * option retry.error.
Variable ctxDone : nat -> bool.
Variable source : nat -> Z.

(** X1. Whatever the operation, the context and the random source do,
    one call of [Retry] polls the context at most [attempts] times, runs
    the operation at most once per poll, sleeps at most once per run of
    the operation, and draws a jitter for every sleep but possibly the
    last (the one before a panic). *)
Theorem Retry_effects_bounded (attempts : nat) (delay : Z) :
  let w := snd (retry.Retry f ctxDone source attempts delay) in
  (retry.calls w <= retry.polls w <= attempts)%nat
  /\ (retry.draws w <= length (retry.slept w) <= retry.calls w)%nat
  /\ (length (retry.slept w) <= S (retry.draws w))%nat.
Proof.
  pose proof (loop_counts f ctxDone source attempts delay None None
                retry.start) as H.
  cbn zeta in *. unfold retry.Retry. simpl in H. lia.
Qed.

(** X2. A pair returned by [Retry] is one of four: [(nil, nil)] when no
    attempt was allowed; [(nil, RetryCancellationErr)] when the context
    was done at the last poll, which ran no operation; the result of the
    last invocation with a nil error, that invocation having succeeded;
    or, with every attempt used, the result and the error of the last
    invocation. *)
Theorem Retry_outcome_provenance (attempts : nat) (delay : Z)
    (result : option A) (err : option retry.error) (w : retry.World) :
  retry.Retry f ctxDone source attempts delay
  = (retry.Returned result err, w) ->
  (attempts = 0%nat /\ result = None /\ err = None /\ w = retry.start)
  \/ (result = None /\ err = Some retry.RetryCancellationErr
      /\ retry.polls w = S (retry.calls w)
      /\ ctxDone (retry.calls w) = true)
  \/ (err = None /\ (1 <= retry.calls w)%nat
      /\ f (retry.calls w - 1)%nat = (result, None))
  \/ (attempts <> 0%nat /\ retry.calls w = attempts
      /\ err <> None /\ f (attempts - 1)%nat = (result, err)).
Proof.
  intros H. unfold retry.Retry in H. apply loop_returned in H. simpl in H.
  destruct H as [H|[(H1 & H2 & _ & H3 & H4)|
                 [(H1 & H2 & H3)|(H1 & H2 & H3 & H4)]]].
  - left. exact H.
  - right. left. rewrite !Nat.sub_0_r in H3.
    rewrite H3 in H4. simpl in H4. rewrite Nat.sub_0_r in H4.
    repeat split; [exact H1|exact H2|exact H3|exact H4].
  - right. right. left. repeat split; [exact H1|lia|exact H3].
  - right. right. right. rewrite H2 in H4.
    repeat split; [exact H1|exact H2|exact H3|exact H4].
Qed.

(** X3. When no error of the operation reads [RetryCancellationErr], an
    error of [Retry] that [IsRetryCancelledError] accepts is the
    cancellation error itself: the context was done at the last poll and
    the result is nil. *)
Theorem Retry_cancellation_recognised (attempts : nat) (delay : Z)
    (result : option A) (err : option retry.error) (w : retry.World) :
  (forall i, retry.IsRetryCancelledError (snd (f i)) = false) ->
  retry.Retry f ctxDone source attempts delay
  = (retry.Returned result err, w) ->
  retry.IsRetryCancelledError err = true ->
  result = None /\ err = Some retry.RetryCancellationErr
  /\ retry.polls w = S (retry.calls w)
  /\ ctxDone (retry.calls w) = true.
Proof.
  intros Hop H Hrec. unfold retry.Retry in H.
  apply loop_returned in H. simpl in H.
  destruct H as [(_ & _ & -> & _)|[(H1 & H2 & _ & H3 & H4)|
                 [(-> & _ & _)|(_ & _ & _ & H4)]]].
  - discriminate Hrec.
  - rewrite !Nat.sub_0_r in H3.
    rewrite H3 in H4. simpl in H4. rewrite Nat.sub_0_r in H4.
    repeat split; assumption.
  - discriminate Hrec.
  - specialize (Hop (retry.calls w - 1)%nat). rewrite H4 in Hop. simpl in Hop.
    congruence.
Qed.

(** X4. When the first [m] attempts fail and the context is done at the
    boundary before attempt [m + 1 <= attempts], [Retry] returns a nil
    result and the cancellation error, whatever the failed attempts had
    returned as results, after [m] invocations and [m] sleeps. *)
Theorem Retry_cancelled_after_failures (attempts : nat) (delay : Z)
    (m : nat) :
  (m < attempts)%nat ->
  (forall i, (i < m)%nat -> ctxDone i = false) ->
  ctxDone m = true ->
  (forall i, (i < m)%nat -> snd (f i) <> None) ->
  retry.allPositive (retry.delays source 0 delay m) = true ->
  retry.Retry f ctxDone source attempts delay
  = (retry.Returned None (Some retry.RetryCancellationErr),
     retry.mkWorld m (S m) m (retry.delays source 0 delay m)).
Proof.
  intros Hm Hdone Hcancel Hfail Hpos.
  destruct m as [|m].
  - destruct attempts as [|r]; [lia|].
    unfold retry.Retry. rewrite loop_cancelled by exact Hcancel. reflexivity.
  - replace attempts with (S m + S (attempts - S (S m)))%nat by lia.
    rewrite Retry_failed by (assumption || lia).
    rewrite loop_cancelled by exact Hcancel. reflexivity.
Qed.

(** X5. With an initial delay of one or two nanoseconds the backoff
    never grows: every delay slept equals the initial one. *)
Theorem Retry_small_delay_constant (attempts : nat) (delay : Z) :
  1 <= delay <= 2 ->
  Forall (fun d => d = delay)
         (retry.slept (snd (retry.Retry f ctxDone source attempts delay))).
Proof.
  intros Hd.
  destruct (loop_slept f ctxDone source attempts delay None None retry.start)
    as (m & _ & Heq).
  unfold retry.Retry. rewrite Heq. simpl.
  rewrite delays_small by exact Hd.
  apply List.Forall_forall. intros x Hx. apply repeat_spec in Hx. exact Hx.
Qed.

(** X6. With a positive delay whose growth over [attempts - 1] updates
    fits [int64], every duration handed to [time.Sleep] is at least the
    initial delay and at most that growth, so the sum of the durations
    asked for lies between the number of sleeps times the initial delay
    and [attempts] times the growth. *)
Theorem Retry_sleep_bounded (attempts : nat) (delay : Z) :
  0 < delay ->
  retry.ceilAfter (attempts - 1) delay <= Int64.maxInt64 ->
  let w := snd (retry.Retry f ctxDone source attempts delay) in
  Forall (fun d => delay <= d <= retry.ceilAfter (attempts - 1) delay)
         (retry.slept w)
  /\ Z.of_nat (length (retry.slept w)) * delay <= observe.sleepRequested w
  /\ observe.sleepRequested w
     <= Z.of_nat attempts * retry.ceilAfter (attempts - 1) delay.
Proof.
  intros Hd Hmax. cbn zeta.
  destruct (loop_slept f ctxDone source attempts delay None None retry.start)
    as (m & Hm & Heq).
  unfold observe.sleepRequested, retry.Retry. rewrite Heq. simpl.
  set (top := retry.ceilAfter (attempts - 1) delay) in *.
  assert (Hall : Forall (fun d => delay <= d <= top)
                        (retry.delays source 0 delay m)).
  { destruct m as [|m]; [constructor|].
    pose proof (ceilAfter_le_mono m (attempts - 1) delay ltac:(lia)
                  ltac:(lia)) as Hle.
    destruct (delays_in_range source m 0%nat delay Hd ltac:(lia)) as [H _].
    eapply List.Forall_impl; [|exact H]. simpl. intros x Hx. lia. }
  split; [exact Hall|].
  assert (Hlen : (length (retry.delays source 0 delay m) <= attempts)%nat)
    by (rewrite delays_length; exact Hm).
  assert (Htop : 0 <= top)
    by (pose proof (ceilAfter_ge (attempts - 1) delay ltac:(lia)); lia).
  pose proof (sum_between _ _ _ Hall) as [Hlo Hhi].
  split; [exact Hlo|].
  pose proof (Z.mul_le_mono_nonneg_r
                (Z.of_nat (length (retry.delays source 0 delay m)))
                (Z.of_nat attempts) top Htop ltac:(lia)).
  lia.
Qed.

End RetryExtras.

Section RetryPanics.

Context {A : Type}.
Variable f : nat -> option A * option retry.error.
Variable ctxDone : nat -> bool.
Variable source : nat -> Z.


End RetryPanics.

(** *** Instances for the further properties of the retry executor *)

(** A run that stops at the first success returns it. *)
Lemma Retry_outcome_provenance_witness :
  retry.Retry (samples.failsThenReturns 1 "ok") samples.never
              (samples.constant 7) 4 1000
  = (retry.Returned (Some "ok"%string) None, retry.mkWorld 2 2 1 [1000])
  /\ ((4%nat = 0%nat /\ Some "ok"%string = None /\ @None retry.error = None
       /\ retry.mkWorld 2 2 1 [1000] = retry.start)
      \/ (Some "ok"%string = None
          /\ @None retry.error = Some retry.RetryCancellationErr
          /\ 2%nat = 3%nat /\ samples.never 2%nat = true)
      \/ (@None retry.error = None /\ (1 <= 2)%nat
          /\ samples.failsThenReturns 1 "ok" (2 - 1)%nat
             = (Some "ok"%string, None))
      \/ (4%nat <> 0%nat /\ 2%nat = 4%nat /\ @None retry.error <> None
          /\ samples.failsThenReturns 1 "ok" (4 - 1)%nat
             = (Some "ok"%string, None))).
Proof.
  assert (Hrun : retry.Retry (samples.failsThenReturns 1 "ok") samples.never
                   (samples.constant 7) 4 1000
                 = (retry.Returned (Some "ok"%string) None,
                    retry.mkWorld 2 2 1 [1000]))
    by (vm_compute; reflexivity).
  split; [exact Hrun|].
  exact (Retry_outcome_provenance (samples.failsThenReturns 1 "ok")
           samples.never (samples.constant 7) 4 1000
           (Some "ok"%string) None (retry.mkWorld 2 2 1 [1000]) Hrun).
Defined.

(** A run cancelled after one failed attempt. *)
Lemma Retry_cancellation_recognised_witness :
  retry.Retry samples.alwaysFails (samples.cancelledFrom 1)
              (samples.constant 7) 3 1000
  = (retry.Returned None (Some retry.RetryCancellationErr),
     retry.mkWorld 1 2 1 [1000])
  /\ (@None string = None
      /\ Some retry.RetryCancellationErr = Some retry.RetryCancellationErr
      /\ 2%nat = 2%nat
      /\ samples.cancelledFrom 1 1%nat = true).
Proof.
  assert (Hrun : retry.Retry samples.alwaysFails (samples.cancelledFrom 1)
                   (samples.constant 7) 3 1000
                 = (retry.Returned None (Some retry.RetryCancellationErr),
                    retry.mkWorld 1 2 1 [1000]))
    by (vm_compute; reflexivity).
  split; [exact Hrun|].
  apply (Retry_cancellation_recognised samples.alwaysFails
           (samples.cancelledFrom 1) (samples.constant 7) 3 1000
           None (Some retry.RetryCancellationErr)
           (retry.mkWorld 1 2 1 [1000])).
  - intros i. unfold samples.alwaysFails. simpl.
    destruct (i =? 0)%nat; reflexivity.
  - exact Hrun.
  - reflexivity.
Defined.

(** Two failed attempts that had partial results, then a done context. *)
Lemma Retry_cancelled_after_failures_witness :
  retry.Retry samples.alwaysFails (samples.cancelledFrom 2)
              (samples.constant 7) 5 1000
  = (retry.Returned None (Some retry.RetryCancellationErr),
     retry.mkWorld 2 3 2 [1000; 1003]).
Proof.
  apply (Retry_cancelled_after_failures samples.alwaysFails
           (samples.cancelledFrom 2) (samples.constant 7) 5 1000 2).
  - lia.
  - intros i Hi. destruct i as [|[|i]]; [reflexivity|reflexivity|lia].
  - reflexivity.
  - intros i Hi. simpl. congruence.
  - reflexivity.
Defined.

(** Four failed attempts with a delay of 2ns and large draws. *)
Lemma Retry_small_delay_constant_witness :
  retry.slept (snd (retry.Retry samples.alwaysFails samples.never
                                samples.large 4 2))
  = [2; 2; 2; 2]
  /\ Forall (fun d => d = 2)
            (retry.slept (snd (retry.Retry samples.alwaysFails samples.never
                                           samples.large 4 2))).
Proof.
  split; [vm_compute; reflexivity|].
  apply (Retry_small_delay_constant samples.alwaysFails samples.never
           samples.large 4 2). lia.
Defined.

(** Three failed attempts from 1000ns with draws of 900. *)
Lemma Retry_sleep_bounded_witness :
  retry.slept (snd (retry.Retry samples.alwaysFails samples.never
                                (samples.constant 900) 3 1000))
  = [1000; 1450; 1900]
  /\ (let w := snd (retry.Retry samples.alwaysFails samples.never
                                (samples.constant 900) 3 1000) in
      Forall (fun d => 1000 <= d <= retry.ceilAfter (3 - 1) 1000)
             (retry.slept w)
      /\ Z.of_nat (length (retry.slept w)) * 1000 <= observe.sleepRequested w
      /\ observe.sleepRequested w
         <= Z.of_nat 3 * retry.ceilAfter (3 - 1) 1000).
Proof.
  split; [vm_compute; reflexivity|].
  apply (Retry_sleep_bounded samples.alwaysFails samples.never
           (samples.constant 900) 3 1000); [lia|vm_compute; congruence].
Defined.


(** ** Further properties of the query context *)

Section QueryExtras.

Variable E : prom.Env.
Variable ctx : prom.Context.

Local Open Scope string_scope.

(** X8. The loop over the warnings stops at the first warning that
    [IsNoStoreAPIWarning] accepts, with a [CommErrorf] error that carries
    this warning, the body and the query, having logged the warnings
    before it and none after; when no warning is accepted it makes no
    error and logs them all, in order. *)
Theorem rangeWarnings_first_match (body : prom.bytes) (q : string) :
  (forall ws,
     (forall w, In w ws -> prom.IsNoStoreAPIWarning E w = false) ->
     prom.rangeWarnings E body q ws = (None, ws))
  /\ (forall pre w post,
        (forall x, In x pre -> prom.IsNoStoreAPIWarning E x = false) ->
        prom.IsNoStoreAPIWarning E w = true ->
        prom.rangeWarnings E body q (pre ++ w :: post)
        = (Some (prom.CommErrorf "Error: %s, Body: %s, Query: %s"
                   [prom.AStr w; prom.AStr body; prom.AStr q]), pre)).
Proof.
  split.
  - induction ws as [|w ws IH]; intros Hall; [reflexivity|].
    simpl. rewrite (Hall w) by (left; reflexivity).
    rewrite IH by (intros x Hx; apply Hall; right; exact Hx). reflexivity.
  - induction pre as [|x pre IH]; intros w post Hpre Hw.
    + simpl. rewrite Hw. reflexivity.
    + simpl. rewrite (Hpre x) by (left; reflexivity).
      rewrite IH by (try (intros y Hy; apply Hpre; right); assumption).
      reflexivity.
Qed.

(** X9. [warningsFrom] yields warnings from one shape of value only, a
    map whose key [warnings] holds a [[]string], and then yields exactly
    that slice; a [[]interface{}] under the key, whatever its elements,
    yields none, and so does a map without the key. *)
Theorem warningsFrom_only_string_slice :
  (forall v,
     prom.warningsFrom v <> [] ->
     exists m, v = prom.VMap m
               /\ m !! "warnings" = Some (prom.VStrings (prom.warningsFrom v)))
  /\ (forall (m : gmap string prom.value) ws,
        prom.warningsFrom (prom.VMap (<["warnings" := prom.VStrings ws]> m))
        = ws)
  /\ (forall (m : gmap string prom.value) l,
        prom.warningsFrom (prom.VMap (<["warnings" := prom.VSlice l]> m))
        = [])
  /\ (forall (m : gmap string prom.value),
        prom.warningsFrom (prom.VMap (delete "warnings" m)) = []).
Proof.
  split; [|split; [|split]].
  - intros v Hv. destruct v as [| | | | |l|m]; try (simpl in Hv; congruence).
    exists m. split; [reflexivity|]. simpl in *.
    destruct (m !! "warnings") as [[| | | |ws| |]|]; congruence.
  - intros m ws. simpl. rewrite lookup_insert_eq. reflexivity.
  - intros m l. simpl. rewrite lookup_insert_eq. reflexivity.
  - intros m. simpl. rewrite lookup_delete_eq. reflexivity.
Qed.

(** X10. [RawQuery] and [RawQueryRange] hand over a body with a nil
    error exactly when the request could be built and the client
    answered it without an error and with a status from 200 to 299, and
    the body is then the one the client received; with an error they
    hand over no body. *)
Theorem RawQuery_body_iff_success (q : string) (now start end_ : prom.Time E)
    (step : Z) (body : prom.bytes) :
  (prom.RawQuery E ctx q now = prom.Ret (body, None) <->
   exists req resp,
     prom.RawQueryRequest E ctx q now = inl req
     /\ prom.ClientDo (prom.client ctx) req = (Some resp, body, None)
     /\ (200 <= prom.StatusCode resp < 300)%Z)
  /\ (prom.RawQueryRange E ctx q start end_ step = prom.Ret (body, None) <->
      exists req resp,
        prom.RawQueryRangeRequest E ctx q start end_ step = inl req
        /\ prom.ClientDo (prom.client ctx) req = (Some resp, body, None)
        /\ (200 <= prom.StatusCode resp < 300)%Z)
  /\ (forall b e, prom.RawQuery E ctx q now = prom.Ret (b, Some e) -> b = "")
  /\ (forall b e,
        prom.RawQueryRange E ctx q start end_ step = prom.Ret (b, Some e) ->
        b = "").
Proof.
  split; [|split; [|split]].
  - unfold prom.RawQuery. split.
    + destruct (prom.RawQueryRequest E ctx q now) as [req|e]; [|discriminate].
      destruct (prom.ClientDo (prom.client ctx) req)
        as [[[resp|] body'] [e|]] eqn:Hdo; try discriminate.
      destruct (Z.ltb_spec (prom.StatusCode resp) 200) as [Hlo|Hlo];
        [discriminate|].
      destruct (Z.leb_spec 300 (prom.StatusCode resp)) as [Hhi|Hhi];
        [discriminate|].
      simpl. intros Heq. inversion Heq; subst. exists req, resp.
      split; [reflexivity|split; [exact Hdo|lia]].
    + intros (req & resp & Hreq & Hdo & Hst). rewrite Hreq, Hdo.
      destruct (Z.ltb_spec (prom.StatusCode resp) 200); [lia|].
      destruct (Z.leb_spec 300 (prom.StatusCode resp)); [lia|]. reflexivity.
  - unfold prom.RawQueryRange. split.
    + destruct (prom.RawQueryRangeRequest E ctx q start end_ step)
        as [req|e]; [|discriminate].
      destruct (prom.ClientDo (prom.client ctx) req)
        as [[[resp|] body'] [e|]] eqn:Hdo; try discriminate.
      destruct (Z.ltb_spec (prom.StatusCode resp) 200) as [Hlo|Hlo];
        [discriminate|].
      destruct (Z.leb_spec 300 (prom.StatusCode resp)) as [Hhi|Hhi];
        [discriminate|].
      simpl. intros Heq. inversion Heq; subst. exists req, resp.
      split; [reflexivity|split; [exact Hdo|lia]].
    + intros (req & resp & Hreq & Hdo & Hst). rewrite Hreq, Hdo.
      destruct (Z.ltb_spec (prom.StatusCode resp) 200); [lia|].
      destruct (Z.leb_spec 300 (prom.StatusCode resp)); [lia|]. reflexivity.
  - intros b e. unfold prom.RawQuery.
    destruct (prom.RawQueryRequest E ctx q now) as [req|e'];
      [|intros H; inversion H; reflexivity].
    destruct (prom.ClientDo (prom.client ctx) req)
      as [[[resp|] body'] [e'|]]; try discriminate;
      try (intros H; inversion H; reflexivity).
    destruct (_ || _)%bool; intros H; inversion H. reflexivity.
  - intros b e. unfold prom.RawQueryRange.
    destruct (prom.RawQueryRangeRequest E ctx q start end_ step) as [req|e'];
      [|intros H; inversion H; reflexivity].
    destruct (prom.ClientDo (prom.client ctx) req)
      as [[[resp|] body'] [e'|]]; try discriminate;
      try (intros H; inversion H; reflexivity).
    destruct (_ || _)%bool; intros H; inversion H. reflexivity.
Qed.

End QueryExtras.

Section QueryErrors.

Variable E : prom.Env.
Variable ctx : prom.Context.

Local Open Scope string_scope.

(** X11. Every error that [RawQuery] or [RawQueryRange] makes carries
    the query text among the arguments of its message; the one error
    that does not is the error of [http.NewRequest], which is returned as
    it came. *)
Theorem RawQuery_error_carries_query (q : string)
    (now start end_ : prom.Time E) (step : Z) :
  (forall b e,
     prom.RawQuery E ctx q now = prom.Ret (b, Some e) ->
     (exists msg, e = prom.Foreign msg
                  /\ prom.RawQueryRequest E ctx q now = inr msg)
     \/ observe.carriesQuery q e)
  /\ (forall b e,
        prom.RawQueryRange E ctx q start end_ step = prom.Ret (b, Some e) ->
        (exists msg, e = prom.Foreign msg
                     /\ prom.RawQueryRangeRequest E ctx q start end_ step
                        = inr msg)
        \/ observe.carriesQuery q e).
Proof.
  split; intros b e.
  - unfold prom.RawQuery.
    destruct (prom.RawQueryRequest E ctx q now) as [req|msg].
    + destruct (prom.ClientDo (prom.client ctx) req)
        as [[[resp|] body'] [e'|]]; try discriminate;
        try (intros H; inversion H; subst; right; simpl; tauto).
      destruct (_ || _)%bool; intros H; inversion H; subst.
      right. simpl. tauto.
    + intros H. inversion H; subst. left. exists msg. auto.
  - unfold prom.RawQueryRange.
    destruct (prom.RawQueryRangeRequest E ctx q start end_ step) as [req|msg].
    + destruct (prom.ClientDo (prom.client ctx) req)
        as [[[resp|] body'] [e'|]]; try discriminate;
        try (intros H; inversion H; subst; right; simpl; tauto).
      destruct (_ || _)%bool; intros H; inversion H; subst.
      right. simpl. tauto.
    + intros H. inversion H; subst. left. exists msg. auto.
Qed.

(** X12. An error of [RawQuery] or [RawQueryRange] is one made by
    [CommErrorf] exactly when the client answered without an error of
    its own and with a status below 200 or from 300 on; a failure of the
    transport itself is never a [CommErrorf] error. *)
Theorem RawQuery_comm_error_iff_status (q : string)
    (now start end_ : prom.Time E) (step : Z) :
  (forall b e,
     prom.RawQuery E ctx q now = prom.Ret (b, Some e) ->
     (observe.isCommError e = true <->
      exists req resp body,
        prom.RawQueryRequest E ctx q now = inl req
        /\ prom.ClientDo (prom.client ctx) req = (Some resp, body, None)
        /\ (prom.StatusCode resp < 200 \/ 300 <= prom.StatusCode resp)%Z))
  /\ (forall b e,
        prom.RawQueryRange E ctx q start end_ step = prom.Ret (b, Some e) ->
        (observe.isCommError e = true <->
         exists req resp body,
           prom.RawQueryRangeRequest E ctx q start end_ step = inl req
           /\ prom.ClientDo (prom.client ctx) req = (Some resp, body, None)
           /\ (prom.StatusCode resp < 200 \/ 300 <= prom.StatusCode resp)%Z)).
Proof.
  split; intros b e.
  - unfold prom.RawQuery.
    destruct (prom.RawQueryRequest E ctx q now) as [req|msg].
    + destruct (prom.ClientDo (prom.client ctx) req)
        as [[[resp|] body'] [e'|]] eqn:Hdo; try discriminate.
      * intros H; inversion H; subst. simpl. split; [discriminate|].
        intros (req' & resp' & body & Hreq & Hdo' & _).
        inversion Hreq; subst. rewrite Hdo in Hdo'. discriminate Hdo'.
      * destruct (Z.ltb_spec (prom.StatusCode resp) 200) as [Hlo|Hlo];
          [|destruct (Z.leb_spec 300 (prom.StatusCode resp)) as [Hhi|Hhi]];
          simpl; intros H; inversion H; subst; simpl.
        -- split; [|reflexivity]. intros _. exists req, resp, body'.
           split; [reflexivity|split; [exact Hdo|lia]].
        -- split; [|reflexivity]. intros _. exists req, resp, body'.
           split; [reflexivity|split; [exact Hdo|lia]].
      * intros H; inversion H; subst. simpl. split; [discriminate|].
        intros (req' & resp' & body & Hreq & Hdo' & _).
        inversion Hreq; subst. rewrite Hdo in Hdo'. discriminate Hdo'.
    + intros H. inversion H; subst. simpl. split; [discriminate|].
      intros (req' & resp' & body & Hreq & _). discriminate Hreq.
  - unfold prom.RawQueryRange.
    destruct (prom.RawQueryRangeRequest E ctx q start end_ step) as [req|msg].
    + destruct (prom.ClientDo (prom.client ctx) req)
        as [[[resp|] body'] [e'|]] eqn:Hdo; try discriminate.
      * intros H; inversion H; subst. simpl. split; [discriminate|].
        intros (req' & resp' & body & Hreq & Hdo' & _).
        inversion Hreq; subst. rewrite Hdo in Hdo'. discriminate Hdo'.
      * destruct (Z.ltb_spec (prom.StatusCode resp) 200) as [Hlo|Hlo];
          [|destruct (Z.leb_spec 300 (prom.StatusCode resp)) as [Hhi|Hhi]];
          simpl; intros H; inversion H; subst; simpl.
        -- split; [|reflexivity]. intros _. exists req, resp, body'.
           split; [reflexivity|split; [exact Hdo|lia]].
        -- split; [|reflexivity]. intros _. exists req, resp, body'.
           split; [reflexivity|split; [exact Hdo|lia]].
      * intros H; inversion H; subst. simpl. split; [discriminate|].
        intros (req' & resp' & body & Hreq & Hdo' & _).
        inversion Hreq; subst. rewrite Hdo in Hdo'. discriminate Hdo'.
    + intros H. inversion H; subst. simpl. split; [discriminate|].
      intros (req' & resp' & body & Hreq & _). discriminate Hreq.
Qed.

(** X13. An error of the request passes through [query] and [QuerySync]
    (and through [queryRange] and [QueryRangeSync]) unchanged, with a nil
    value, nil results and no warnings, whatever the parser and the
    result decoder would have said; and a panic of the request is a
    panic of the call. *)
Theorem request_error_passes_through (q : string)
    (now start end_ : prom.Time E) (step : Z) :
  (forall b e,
     prom.RawQuery E ctx q now = prom.Ret (b, Some e) ->
     prom.query E ctx q now = prom.Ret (prom.VNil, [], Some e)
     /\ prom.QuerySync E ctx q now = prom.Ret (None, [], Some e))
  /\ (forall b e,
        prom.RawQueryRange E ctx q start end_ step = prom.Ret (b, Some e) ->
        prom.queryRange E ctx q start end_ step
        = prom.Ret (prom.VNil, [], Some e)
        /\ prom.QueryRangeSync E ctx q start end_ step
           = prom.Ret (None, [], Some e))
  /\ (forall msg,
        prom.RawQuery E ctx q now = prom.Panic msg ->
        prom.QuerySync E ctx q now = prom.Panic msg)
  /\ (forall msg,
        prom.RawQueryRange E ctx q start end_ step = prom.Panic msg ->
        prom.QueryRangeSync E ctx q start end_ step = prom.Panic msg).
Proof.
  split; [|split; [|split]].
  - intros b e H. unfold prom.QuerySync, prom.query. rewrite H. auto.
  - intros b e H. unfold prom.QueryRangeSync, prom.queryRange. rewrite H. auto.
  - intros msg H. unfold prom.QuerySync, prom.query. rewrite H. reflexivity.
  - intros msg H. unfold prom.QueryRangeSync, prom.queryRange. rewrite H.
    reflexivity.
Qed.

(** X14. Given the same body, the instant path and the range path treat
    it alike: [query] and [queryRange] return the same value, warnings
    and error, and so do [QuerySync] and [QueryRangeSync]. *)
Theorem Sync_paths_agree_on_body (q : string)
    (now start end_ : prom.Time E) (step : Z) (body : prom.bytes) :
  prom.RawQuery E ctx q now = prom.Ret (body, None) ->
  prom.RawQueryRange E ctx q start end_ step = prom.Ret (body, None) ->
  prom.query E ctx q now = prom.queryRange E ctx q start end_ step
  /\ prom.QuerySync E ctx q now
     = prom.QueryRangeSync E ctx q start end_ step.
Proof.
  intros H1 H2.
  assert (Hq : prom.query E ctx q now
               = prom.queryRange E ctx q start end_ step)
    by (unfold prom.query, prom.queryRange; rewrite H1, H2; reflexivity).
  split; [exact Hq|].
  unfold prom.QuerySync, prom.QueryRangeSync. rewrite Hq. reflexivity.
Qed.

(** X15. The parameters of an instant query keep every parameter the URL
    of the client already has, except [query] and [time], whose former
    values are replaced, not added to. *)
Theorem RawQuery_parameters_kept (q : string) (now : prom.Time E) :
  let base := prom.ParseQuery E
                (prom.urlRawQuery (prom.ClientURL (prom.client ctx)
                                                  prom.epQuery)) in
  prom.RawQueryValues E ctx q now !! "query" = Some [q]
  /\ (exists t, prom.RawQueryValues E ctx q now !! "time" = Some [t])
  /\ (forall k, k <> "query" -> k <> "time" ->
        prom.RawQueryValues E ctx q now !! k = base !! k).
Proof.
  cbn zeta. unfold prom.RawQueryValues, prom.Set_.
  destruct (negb _ && negb _)%bool.
  - split; [|split].
    + rewrite lookup_insert_ne by discriminate. apply lookup_insert_eq.
    + eexists. apply lookup_insert_eq.
    + intros k Hq Ht. rewrite !lookup_insert_ne by congruence. reflexivity.
  - split; [|split].
    + rewrite lookup_insert_ne by discriminate. apply lookup_insert_eq.
    + eexists. apply lookup_insert_eq.
    + intros k Hq Ht. rewrite !lookup_insert_ne by congruence. reflexivity.
Qed.

(** X16. The parameters of a range query are [query], [start] and [end]
    in the RFC3339Nano layout and [step] as its seconds with three
    decimals; every other parameter of the URL of the client is kept, and
    in particular a range query sets no [time] and is not touched by the
    query offset. *)
Theorem RawQueryRange_parameters_kept (q : string) (start end_ : prom.Time E)
    (step : Z) :
  let base := prom.ParseQuery E
                (prom.urlRawQuery (prom.ClientURL (prom.client ctx)
                                                  prom.epQueryRange)) in
  let v := prom.RawQueryRangeValues E ctx q start end_ step in
  v !! "query" = Some [q]
  /\ v !! "start" = Some [prom.Format E start prom.RFC3339Nano]
  /\ v !! "end" = Some [prom.Format E end_ prom.RFC3339Nano]
  /\ v !! "step"
     = Some [prom.FormatFloat E (prom.Seconds E step) "f"%char 3 64]
  /\ (forall k, k <> "query" -> k <> "start" -> k <> "end" -> k <> "step" ->
        v !! k = base !! k)
  /\ v !! "time" = base !! "time".
Proof.
  cbn zeta. unfold prom.RawQueryRangeValues, prom.Set_. cbn zeta.
  repeat split;
    try (repeat first [apply lookup_insert_eq
                      | rewrite lookup_insert_ne by discriminate]).
  - intros k H1 H2 H3 H4. rewrite !lookup_insert_ne by congruence.
    reflexivity.
  - reflexivity.
Qed.

End QueryErrors.

(** ** Properties of the pod collectors *)

Section CollectorFacts.

Variable KubeAnnotationsToLabels : gmap string string -> list string * list string.
Variable KubePrependQualifierToLabels :
  gmap string string -> string -> list string * list string.

Local Open Scope string_scope.
Local Open Scope nat_scope.

Let labelled (pod : metrics.Pod) : bool :=
  0 <? length (fst (KubeAnnotationsToLabels (metrics.Annotations pod))).

Let identity (pod : metrics.Pod) : string * string :=
  (metrics.Namespace pod, metrics.Name pod).

Lemma rangeAnnotations_pods pods :
  List.map metrics.metricPod
           (metrics.rangeAnnotations KubeAnnotationsToLabels pods)
  = List.map identity (List.filter labelled pods).
Proof.
  induction pods as [|pod pods IH]; [reflexivity|].
  cbn [metrics.rangeAnnotations List.filter]. unfold labelled at 1.
  destruct (KubeAnnotationsToLabels (metrics.Annotations pod))
    as [labels values]. cbn [fst].
  destruct (0 <? length labels); cbn [List.map metrics.metricPod];
    rewrite IH; reflexivity.
Qed.

Lemma rangeAnnotations_shape pods :
  Forall (fun m => exists ns pod names values,
                     m = metrics.PodAnnotationMetric "kube_pod_annotations"
                           ns pod names values
                     /\ names <> [])
         (metrics.rangeAnnotations KubeAnnotationsToLabels pods).
Proof.
  induction pods as [|pod pods IH]; [constructor|].
  cbn [metrics.rangeAnnotations].
  destruct (KubeAnnotationsToLabels (metrics.Annotations pod))
    as [labels values].
  destruct (Nat.ltb_spec 0 (length labels)) as [Hlen|Hlen]; [|exact IH].
  constructor; [|exact IH].
  exists (metrics.Namespace pod), (metrics.Name pod), labels, values.
  split; [reflexivity|]. destruct labels; [simpl in Hlen; lia|discriminate].
Qed.

(** X17. The annotation collector sends one [kube_pod_annotations]
    metric for each pod of the cache whose annotations give at least one
    label, in the order of the cache, each with a label list that is not
    empty; a pod whose annotations give no label is passed over, and an
    empty cache sends nothing. *)
Theorem annotations_collected_when_labelled
    (kpmc : metrics.KubecostPodLabelsCollector) :
  let pods := metrics.GetAllPods (metrics.KubecostCache kpmc) in
  let sent := metrics.KubecostPodLabelsCollector_Collect
                KubeAnnotationsToLabels kpmc in
  List.map metrics.metricPod sent
  = List.map (fun pod => (metrics.Namespace pod, metrics.Name pod))
      (List.filter
         (fun pod => 0 <? length (fst (KubeAnnotationsToLabels
                                         (metrics.Annotations pod))))
         pods)
  /\ length sent <= length pods
  /\ Forall (fun m => exists ns pod names values,
                        m = metrics.PodAnnotationMetric "kube_pod_annotations"
                              ns pod names values
                        /\ names <> [])
            sent
  /\ (pods = [] -> sent = []).
Proof.
  cbn zeta. unfold metrics.KubecostPodLabelsCollector_Collect.
  pose proof (rangeAnnotations_pods
                (metrics.GetAllPods (metrics.KubecostCache kpmc))) as Hpods.
  split; [exact Hpods|split; [|split]].
  - apply (f_equal (@length _)) in Hpods. rewrite !length_map in Hpods.
    rewrite Hpods. apply filter_length_le.
  - apply rangeAnnotations_shape.
  - intros ->. reflexivity.
Qed.

Lemma rangeOwners_length ns pod owners :
  length (metrics.rangeOwners ns pod owners) = length owners.
Proof. induction owners as [|o owners IH]; simpl; [|rewrite IH]; reflexivity. Qed.

Lemma rangeOwners_kinds ns pod owners :
  List.filter metrics.isLabelsMetric (metrics.rangeOwners ns pod owners) = []
  /\ List.filter metrics.isOwnerMetric (metrics.rangeOwners ns pod owners)
     = metrics.rangeOwners ns pod owners.
Proof.
  induction owners as [|o owners [IH1 IH2]]; [split; reflexivity|].
  simpl. rewrite IH1, IH2. split; reflexivity.
Qed.

Lemma rangeOwners_map ns pod owners :
  metrics.rangeOwners ns pod owners
  = List.map
      (fun owner =>
         metrics.KubePodOwnerMetric "kube_pod_owner" ns pod
           (metrics.OwnerName owner) (metrics.OwnerKind owner)
           (match metrics.Controller owner with
            | Some _ => true | None => false end))
      owners.
Proof.
  induction owners as [|o owners IH]; [reflexivity|].
  simpl. rewrite IH. reflexivity.
Qed.

(** X18. What the label collector sends is, pod after pod in the order
    of the cache, the [kube_pod_labels] metric of the pod, with its
    namespace, name, UID and the labels prefixed with [label_], whether
    or not the pod has labels, followed at once by one [kube_pod_owner]
    metric of that pod for each of its owner references, in their order:
    as many metrics as there are pods and owner references together. *)
Theorem labels_collected_per_pod (kpmc : metrics.KubePodLabelsCollector) :
  let pods := metrics.GetAllPods (metrics.KubeCache kpmc) in
  let sent := metrics.KubePodLabelsCollector_Collect
                KubePrependQualifierToLabels kpmc in
  sent
  = flat_map
      (fun pod =>
         metrics.KubePodLabelsMetric "kube_pod_labels"
           (metrics.Namespace pod) (metrics.Name pod) (metrics.UID pod)
           (fst (KubePrependQualifierToLabels (metrics.Labels pod) "label_"))
           (snd (KubePrependQualifierToLabels (metrics.Labels pod) "label_"))
         :: List.map
              (fun owner =>
                 metrics.KubePodOwnerMetric "kube_pod_owner"
                   (metrics.Namespace pod) (metrics.Name pod)
                   (metrics.OwnerName owner) (metrics.OwnerKind owner)
                   (match metrics.Controller owner with
                    | Some _ => true | None => false end))
              (metrics.OwnerReferences pod))
      pods
  /\ length sent
  = length pods
    + list_sum (List.map (fun pod => length (metrics.OwnerReferences pod))
                         pods)
  /\ List.map metrics.metricPod (List.filter metrics.isLabelsMetric sent)
     = List.map (fun pod => (metrics.Namespace pod, metrics.Name pod)) pods
  /\ length (List.filter metrics.isOwnerMetric sent)
     = list_sum (List.map (fun pod => length (metrics.OwnerReferences pod))
                          pods).
Proof.
  cbn zeta. unfold metrics.KubePodLabelsCollector_Collect.
  induction (metrics.GetAllPods (metrics.KubeCache kpmc)) as [|pod pods IH];
    [repeat split|].
  destruct IH as (IH0 & IH1 & IH2 & IH3).
  cbn [metrics.rangeLabels flat_map].
  destruct (KubePrependQualifierToLabels (metrics.Labels pod) "label_")
    as [names values].
  pose proof (rangeOwners_kinds (metrics.Namespace pod) (metrics.Name pod)
                (metrics.OwnerReferences pod)) as [Hk1 Hk2].
  split; [|split; [|split]].
  - cbn [fst snd app]. rewrite IH0, rangeOwners_map. reflexivity.
  - cbn [length List.map list_sum fold_right].
    rewrite length_app, rangeOwners_length, IH1. unfold list_sum. lia.
  - cbn [List.filter metrics.isLabelsMetric List.map metrics.metricPod].
    rewrite List.filter_app, Hk1. cbn [app]. rewrite IH2. reflexivity.
  - cbn [List.filter metrics.isOwnerMetric List.map list_sum fold_right].
    rewrite List.filter_app, Hk2, length_app, rangeOwners_length, IH3.
    reflexivity.
Qed.

Lemma rangeOwners_In ns pod owners owner :
  In owner owners ->
  In (metrics.KubePodOwnerMetric "kube_pod_owner" ns pod
        (metrics.OwnerName owner) (metrics.OwnerKind owner)
        (match metrics.Controller owner with Some _ => true | None => false end))
     (metrics.rangeOwners ns pod owners).
Proof.
  induction owners as [|o owners IH]; intros Hin; [destruct Hin|].
  destruct Hin as [->|Hin]; simpl; [left; reflexivity|right; auto].
Qed.

(** X19. For every owner reference of every pod of the cache the label
    collector sends a [kube_pod_owner] metric whose controller flag says
    whether the reference has a [Controller] pointer at all: a reference
    whose [Controller] points to [false] is reported as a controller, and
    only a nil pointer is reported as none. *)
Theorem owner_metric_flags_pointer (kpmc : metrics.KubePodLabelsCollector)
    (pod : metrics.Pod) (owner : metrics.OwnerReference) :
  In pod (metrics.GetAllPods (metrics.KubeCache kpmc)) ->
  In owner (metrics.OwnerReferences pod) ->
  (forall b, metrics.Controller owner = Some b ->
     In (metrics.KubePodOwnerMetric "kube_pod_owner" (metrics.Namespace pod)
           (metrics.Name pod) (metrics.OwnerName owner)
           (metrics.OwnerKind owner) true)
        (metrics.KubePodLabelsCollector_Collect
           KubePrependQualifierToLabels kpmc))
  /\ (metrics.Controller owner = None ->
      In (metrics.KubePodOwnerMetric "kube_pod_owner" (metrics.Namespace pod)
            (metrics.Name pod) (metrics.OwnerName owner)
            (metrics.OwnerKind owner) false)
         (metrics.KubePodLabelsCollector_Collect
            KubePrependQualifierToLabels kpmc)).
Proof.
  intros Hpod Howner. unfold metrics.KubePodLabelsCollector_Collect.
  assert (Hsent : In (metrics.KubePodOwnerMetric "kube_pod_owner"
                        (metrics.Namespace pod) (metrics.Name pod)
                        (metrics.OwnerName owner) (metrics.OwnerKind owner)
                        (match metrics.Controller owner with
                         | Some _ => true | None => false end))
                     (metrics.rangeLabels KubePrependQualifierToLabels
                        (metrics.GetAllPods (metrics.KubeCache kpmc)))).
  { induction (metrics.GetAllPods (metrics.KubeCache kpmc)) as [|p pods IH];
      [destruct Hpod|].
    cbn [metrics.rangeLabels].
    destruct (KubePrependQualifierToLabels (metrics.Labels p) "label_")
      as [names values].
    right. apply in_or_app. destruct Hpod as [->|Hpod].
    - left. apply rangeOwners_In. exact Howner.
    - right. apply IH. exact Hpod. }
  split.
  - intros b Hb. rewrite Hb in Hsent. exact Hsent.
  - intros Hb. rewrite Hb in Hsent. exact Hsent.
Qed.

End CollectorFacts.

(** *** Instances for the further properties of the query context *)

(** Two soft warnings, and a store warning between two soft ones. *)
Lemma rangeWarnings_first_match_witness :
  prom.rangeWarnings (samples.env 0) "body" "up"
    [samples.partialResponse; "slow store"%string]
  = (None, [samples.partialResponse; "slow store"%string])
  /\ prom.rangeWarnings (samples.env 0) "body" "up"
       ([samples.partialResponse] ++ samples.storeWarning
                                  :: ["slow store"%string])
     = (Some (prom.CommErrorf "Error: %s, Body: %s, Query: %s"
                [prom.AStr samples.storeWarning; prom.AStr "body";
                 prom.AStr "up"]),
        [samples.partialResponse]).
Proof.
  destruct (rangeWarnings_first_match (samples.env 0) "body" "up")
    as [H1 H2].
  split.
  - apply H1. intros w [<-|[<-|[]]]; reflexivity.
  - apply H2; [intros x [<-|[]]; reflexivity|reflexivity].
Defined.

(** A value that carries its warnings as a [[]string]. *)
Lemma warningsFrom_only_string_slice_witness :
  exists m : gmap string prom.value,
    prom.VMap (<["warnings"%string := prom.VStrings ["slow store"%string]]> ∅)
    = prom.VMap m
    /\ m !! "warnings"%string
       = Some (prom.VStrings
                 (prom.warningsFrom
                    (prom.VMap (<["warnings"%string :=
                                   prom.VStrings ["slow store"%string]]> ∅)))).
Proof.
  destruct warningsFrom_only_string_slice as (H1 & _).
  apply H1. vm_compute. discriminate.
Defined.

(** A backend that answers with 200 hands its body over; one that
    answers with 503 hands over none. *)
Lemma RawQuery_body_iff_success_witness :
  prom.RawQuery (samples.env 0) (prom.NewContext (samples.backend "{}"))
                "up" 1700000000
  = prom.Ret ("{}"%string, None)
  /\ prom.RawQueryRange (samples.env 0)
       (prom.NewContext (samples.backend "{}"))
       "up" 1700000000 1700003600 15000000000
     = prom.Ret ("{}"%string, None)
  /\ (""%string = ""%string).
Proof.
  destruct (RawQuery_body_iff_success (samples.env 0)
              (prom.NewContext (samples.backend "{}"))
              "up" 1700000000 1700000000 1700003600 15000000000 "{}")
    as (H1 & H2 & _ & _).
  destruct (RawQuery_body_iff_success (samples.env 0)
              (prom.NewContext fixtures.unavailable)
              "up" 1700000000 1700000000 1700003600 15000000000 "")
    as (_ & _ & H3 & _).
  split; [|split].
  - apply H1.
    exists (prom.mkRequest "POST"
              "http://prometheus:9090/api/v1/query?time=1700000000"
              ∅ None (Some "up"%string)), (prom.mkResponse 200 ∅).
    split; [vm_compute; reflexivity|split; [reflexivity|simpl; lia]].
  - apply H2.
    exists (prom.mkRequest "POST"
              "http://prometheus:9090/api/v1/query_range?"
              ∅ None (Some "up"%string)), (prom.mkResponse 200 ∅).
    split; [vm_compute; reflexivity|split; [reflexivity|simpl; lia]].
  - eapply H3. vm_compute. reflexivity.
Defined.

(** The error for a status of 503 carries the query; the error of a
    request that cannot be built is the builder's own. *)
Lemma RawQuery_error_carries_query_witness :
  ((exists msg,
      prom.CommErrorf
        "%d (%s) URL: '%s', Request Headers: '%s', Headers: '%s', Body: '%s' Query: '%s'"
        [prom.AInt 503; prom.AStatusText 503;
         prom.AStr "http://prometheus:9090/api/v1/query?time=1700000000";
         prom.AHeader ∅; prom.AHeaderString ∅; prom.AStr "overloaded";
         prom.AStr "up"]
      = prom.Foreign msg
      /\ prom.RawQueryRequest (samples.env 0)
           (prom.NewContext fixtures.unavailable) "up" 1700000000
         = inr msg)
   \/ observe.carriesQuery "up"
        (prom.CommErrorf
           "%d (%s) URL: '%s', Request Headers: '%s', Headers: '%s', Body: '%s' Query: '%s'"
           [prom.AInt 503; prom.AStatusText 503;
            prom.AStr "http://prometheus:9090/api/v1/query?time=1700000000";
            prom.AHeader ∅; prom.AHeaderString ∅; prom.AStr "overloaded";
            prom.AStr "up"]))
  /\ ((exists msg,
         prom.Foreign "invalid URL escape" = prom.Foreign msg
         /\ prom.RawQueryRangeRequest fixtures.brokenEnv
              (prom.NewContext fixtures.unavailable)
              "up" 1700000000 1700003600 15000000000
            = inr msg)
      \/ observe.carriesQuery "up" (prom.Foreign "invalid URL escape")).
Proof.
  destruct (RawQuery_error_carries_query (samples.env 0)
              (prom.NewContext fixtures.unavailable)
              "up" 1700000000 1700000000 1700003600 15000000000)
    as [H1 _].
  destruct (RawQuery_error_carries_query fixtures.brokenEnv
              (prom.NewContext fixtures.unavailable)
              "up" 1700000000 1700000000 1700003600 15000000000)
    as [_ H2].
  split.
  - apply (H1 ""%string). vm_compute. reflexivity.
  - apply (H2 ""%string). vm_compute. reflexivity.
Defined.

(** The error for a status of 503 is one of [CommErrorf]. *)
Lemma RawQuery_comm_error_iff_status_witness :
  exists req resp body,
    prom.RawQueryRequest (samples.env 0)
      (prom.NewContext fixtures.unavailable) "up" 1700000000 = inl req
    /\ prom.ClientDo (prom.client (prom.NewContext fixtures.unavailable)) req
       = (Some resp, body, None)
    /\ (prom.StatusCode resp < 200 \/ 300 <= prom.StatusCode resp).
Proof.
  destruct (RawQuery_comm_error_iff_status (samples.env 0)
              (prom.NewContext fixtures.unavailable)
              "up" 1700000000 1700000000 1700003600 15000000000)
    as [H1 _].
  apply (H1 ""%string
            (prom.CommErrorf
               "%d (%s) URL: '%s', Request Headers: '%s', Headers: '%s', Body: '%s' Query: '%s'"
               [prom.AInt 503; prom.AStatusText 503;
                prom.AStr "http://prometheus:9090/api/v1/query?time=1700000000";
                prom.AHeader ∅; prom.AHeaderString ∅; prom.AStr "overloaded";
                prom.AStr "up"])).
  - vm_compute. reflexivity.
  - reflexivity.
Defined.

(** A transport that gives up: the error reaches the caller of
    [QuerySync] as [RawQuery] made it. *)
Lemma request_error_passes_through_witness :
  prom.query (samples.env 0) (prom.NewContext fixtures.unreachable)
             "up" 1700000000
  = prom.Ret (prom.VNil, [],
              Some (prom.Errorf "query error: '%s' fetching query '%s'"
                      [prom.AStr "dial tcp: connection refused";
                       prom.AStr "up"]))
  /\ prom.QuerySync (samples.env 0) (prom.NewContext fixtures.unreachable)
                    "up" 1700000000
     = prom.Ret (None, [],
                 Some (prom.Errorf "query error: '%s' fetching query '%s'"
                         [prom.AStr "dial tcp: connection refused";
                          prom.AStr "up"])).
Proof.
  destruct (request_error_passes_through (samples.env 0)
              (prom.NewContext fixtures.unreachable)
              "up" 1700000000 1700000000 1700003600 15000000000)
    as (H1 & _).
  apply (H1 ""%string). vm_compute. reflexivity.
Defined.

(** The same body through the instant and through the range path. *)
Lemma Sync_paths_agree_on_body_witness :
  prom.query (samples.env 0)
    (prom.NewContext (samples.backend (samples.bodyWith samples.partialResponse)))
    "up" 1700000000
  = prom.queryRange (samples.env 0)
      (prom.NewContext
         (samples.backend (samples.bodyWith samples.partialResponse)))
      "up" 1700000000 1700003600 15000000000
  /\ prom.QuerySync (samples.env 0)
       (prom.NewContext
          (samples.backend (samples.bodyWith samples.partialResponse)))
       "up" 1700000000
     = prom.QueryRangeSync (samples.env 0)
         (prom.NewContext
            (samples.backend (samples.bodyWith samples.partialResponse)))
         "up" 1700000000 1700003600 15000000000.
Proof.
  apply (Sync_paths_agree_on_body (samples.env 0)
           (prom.NewContext
              (samples.backend (samples.bodyWith samples.partialResponse)))
           "up" 1700000000 1700000000 1700003600 15000000000
           (samples.bodyWith samples.partialResponse));
    vm_compute; reflexivity.
Defined.

(** A client whose URL carries [tenant=a&query=old]: the tenant stays,
    the old query goes. *)
Lemma RawQuery_parameters_kept_witness :
  prom.RawQueryValues (fixtures.tenantEnv 0)
    (prom.NewContext (fixtures.tenantBackend "")) "up" 1700000000
    !! "query"%string = Some ["up"%string]
  /\ prom.RawQueryValues (fixtures.tenantEnv 0)
       (prom.NewContext (fixtures.tenantBackend "")) "up" 1700000000
       !! "tenant"%string = Some ["a"%string].
Proof.
  destruct (RawQuery_parameters_kept (fixtures.tenantEnv 0)
              (prom.NewContext (fixtures.tenantBackend "")) "up" 1700000000)
    as (H1 & _ & H3).
  split; [exact H1|].
  rewrite H3 by discriminate. vm_compute. reflexivity.
Defined.

Lemma RawQueryRange_parameters_kept_witness :
  prom.RawQueryRangeValues (fixtures.tenantEnv 180)
    (prom.NewContext (fixtures.tenantBackend ""))
    "up" 1700000000 1700003600 15000000000 !! "tenant"%string
  = Some ["a"%string]
  /\ prom.RawQueryRangeValues (fixtures.tenantEnv 180)
       (prom.NewContext (fixtures.tenantBackend ""))
       "up" 1700000000 1700003600 15000000000 !! "time"%string
     = None.
Proof.
  destruct (RawQueryRange_parameters_kept (fixtures.tenantEnv 180)
              (prom.NewContext (fixtures.tenantBackend ""))
              "up" 1700000000 1700003600 15000000000)
    as (_ & _ & _ & _ & H5 & H6).
  split.
  - rewrite H5 by discriminate. vm_compute. reflexivity.
  - rewrite H6. vm_compute. reflexivity.
Defined.

(** *** Instances for the pod collectors *)

(** A cache with a bare pod and an annotated one; and an empty cache. *)
Lemma annotations_collected_when_labelled_witness :
  List.map metrics.metricPod
    (metrics.KubecostPodLabelsCollector_Collect fixtures.annotationsToLabels
       (metrics.mkKubecostPodLabelsCollector fixtures.cache))
  = [("shop"%string, "web-0"%string)]
  /\ metrics.KubecostPodLabelsCollector_Collect fixtures.annotationsToLabels
       (metrics.mkKubecostPodLabelsCollector (metrics.mkClusterCache []))
     = [].
Proof.
  destruct (annotations_collected_when_labelled fixtures.annotationsToLabels
              (metrics.mkKubecostPodLabelsCollector fixtures.cache))
    as (H1 & _).
  destruct (annotations_collected_when_labelled fixtures.annotationsToLabels
              (metrics.mkKubecostPodLabelsCollector
                 (metrics.mkClusterCache [])))
    as (_ & _ & _ & H4).
  split.
  - rewrite H1. vm_compute. reflexivity.
  - apply H4. reflexivity.
Defined.

(** The owner of [web-0] whose [Controller] points to [false], and the
    one without a pointer. *)
Lemma owner_metric_flags_pointer_witness :
  In (metrics.KubePodOwnerMetric "kube_pod_owner" "shop" "web-0"
        "web" "StatefulSet" true)
     (metrics.KubePodLabelsCollector_Collect fixtures.prependQualifier
        (metrics.mkKubePodLabelsCollector fixtures.cache))
  /\ In (metrics.KubePodOwnerMetric "kube_pod_owner" "shop" "web-0"
           "legacy" "Job" false)
        (metrics.KubePodLabelsCollector_Collect fixtures.prependQualifier
           (metrics.mkKubePodLabelsCollector fixtures.cache)).
Proof.
  destruct (owner_metric_flags_pointer fixtures.prependQualifier
              (metrics.mkKubePodLabelsCollector fixtures.cache)
              fixtures.web
              (metrics.mkOwnerReference "web" "StatefulSet" (Some false)))
    as [H1 _]; [right; left; reflexivity|left; reflexivity|].
  destruct (owner_metric_flags_pointer fixtures.prependQualifier
              (metrics.mkKubePodLabelsCollector fixtures.cache)
              fixtures.web
              (metrics.mkOwnerReference "legacy" "Job" None))
    as [_ H2]; [right; left; reflexivity|right; left; reflexivity|].
  split.
  - apply (H1 false). reflexivity.
  - apply H2. reflexivity.
Defined.

(** ** Budget, decoding failures and panics *)

Section RetryBudget.

Context {A : Type}.
Variable f : nat -> option A * option retry.error.
Variable ctxDone : nat -> bool.
Variable source : nat -> Z.

(** A loop that did not run out of attempts does the same with more. *)
Lemma loop_more r : forall d result0 err0 w o w' k,
  retry.loop f ctxDone source r d result0 err0 w = (o, w') ->
  (forall result err, o = retry.Returned result err ->
     (err = None /\ r <> 0%nat)
     \/ (retry.calls w' < retry.calls w + r)%nat) ->
  retry.loop f ctxDone source (r + k) d result0 err0 w = (o, w').
Proof.
  induction r as [|r IH]; intros d result0 err0 w o w' k H Hearly.
  - simpl in H. inversion H; subst.
    destruct (Hearly result0 err0 eq_refl) as [[_ Hr]|Hc];
      [congruence|lia].
  - simpl in H |- *. destruct (ctxDone (retry.polls w)); [exact H|].
    destruct (f (retry.calls w)) as [res' [e|]]; [|exact H].
    unfold retry.Int63n in *. simpl retry.draws in *.
    destruct (d <=? 0); [exact H|].
    apply IH; [exact H|].
    intros result err Ho. specialize (Hearly result err Ho). simpl.
    destruct Hearly as [[He _]|Hc]; [|right; lia].
    destruct r as [|r]; [|left; split; [exact He|discriminate]].
    subst o. simpl in H. inversion H; subst. discriminate.
Qed.

(** X20. A call of [Retry] that ended in a success, in a cancellation
    before the last attempt was used, or in a panic ends in the same way,
    with the same invocations, sleeps and draws, when it is allowed more
    attempts. *)
Theorem Retry_more_attempts_same_outcome (attempts more : nat) (delay : Z)
    (o : retry.outcome A) (w : retry.World) :
  retry.Retry f ctxDone source attempts delay = (o, w) ->
  (forall result err, o = retry.Returned result err ->
     (err = None /\ attempts <> 0%nat)
     \/ (retry.calls w < attempts)%nat) ->
  retry.Retry f ctxDone source (attempts + more) delay = (o, w).
Proof.
  intros H Hearly. unfold retry.Retry in *.
  apply loop_more; [exact H|]. simpl. exact Hearly.
Qed.

End RetryBudget.

Section QueryFailures.

Variable E : prom.Env.
Variable ctx : prom.Context.

Local Open Scope string_scope.

(** X21. A body that arrives with a success status but is not JSON makes
    [QuerySync] and [QueryRangeSync] return an error made by [fmt.Errorf]
    that carries the message of the parser and the query, with nil
    results and no warnings, whatever the result decoder would say. *)
Theorem Sync_unmarshal_error (q : string) (now start end_ : prom.Time E)
    (step : Z) (body : prom.bytes) (msg : string) :
  prom.parse E body = inr msg ->
  (prom.RawQuery E ctx q now = prom.Ret (body, None) ->
   prom.QuerySync E ctx q now
   = prom.Ret (None, [],
               Some (prom.Errorf
                       ("Unmarshal Error: %s" ++ String "010" "Query: %s")
                       [prom.AStr msg; prom.AStr q])))
  /\ (prom.RawQueryRange E ctx q start end_ step = prom.Ret (body, None) ->
      prom.QueryRangeSync E ctx q start end_ step
      = prom.Ret (None, [],
                  Some (prom.Errorf
                          ("Unmarshal Error: %s" ++ String "010" "Query: %s")
                          [prom.AStr msg; prom.AStr q]))).
Proof.
  intros Hparse. split; intros Hraw.
  - unfold prom.QuerySync, prom.query, prom.Unmarshal.
    rewrite Hraw, Hparse. reflexivity.
  - unfold prom.QueryRangeSync, prom.queryRange, prom.Unmarshal.
    rewrite Hraw, Hparse. reflexivity.
Qed.

(** X22. When the request was built and the client hands back neither a
    response nor an error, [QuerySync] and [QueryRangeSync] do not return:
    reading the status dereferences the nil response and the call
    panics. *)
Theorem Sync_panics_on_nil_response (q : string)
    (now start end_ : prom.Time E) (step : Z) :
  (forall req body,
     prom.RawQueryRequest E ctx q now = inl req ->
     prom.ClientDo (prom.client ctx) req = (None, body, None) ->
     prom.QuerySync E ctx q now
     = prom.Panic
         "runtime error: invalid memory address or nil pointer dereference")
  /\ (forall req body,
        prom.RawQueryRangeRequest E ctx q start end_ step = inl req ->
        prom.ClientDo (prom.client ctx) req = (None, body, None) ->
        prom.QueryRangeSync E ctx q start end_ step
        = prom.Panic
            "runtime error: invalid memory address or nil pointer dereference").
Proof.
  split; intros req body Hreq Hdo.
  - unfold prom.QuerySync, prom.query, prom.RawQuery.
    rewrite Hreq, Hdo. reflexivity.
  - unfold prom.QueryRangeSync, prom.queryRange, prom.RawQueryRange.
    rewrite Hreq, Hdo. reflexivity.
Qed.

End QueryFailures.

(** *** Instances for budget, decoding failures and panics *)

(** A success on the second of two attempts, then allowed five. *)
Lemma Retry_more_attempts_same_outcome_witness :
  retry.Retry (samples.failsThenReturns 1 "ok") samples.never
              (samples.constant 7) (2 + 3) 1000
  = (retry.Returned (Some "ok"%string) None, retry.mkWorld 2 2 1 [1000]).
Proof.
  apply (Retry_more_attempts_same_outcome (samples.failsThenReturns 1 "ok")
           samples.never (samples.constant 7) 2 3 1000).
  - vm_compute. reflexivity.
  - intros result err H. inversion H; subst. left.
    split; [reflexivity|discriminate].
Defined.

(** A body that is no JSON. *)
Lemma Sync_unmarshal_error_witness :
  prom.QuerySync (samples.env 0)
    (prom.NewContext (samples.backend "upstream timed out"))
    "up" 1700000000
  = prom.Ret (None, [],
              Some (prom.Errorf
                      ("Unmarshal Error: %s" ++ String "010" "Query: %s")
                      [prom.AStr "invalid character"; prom.AStr "up"])).
Proof.
  destruct (Sync_unmarshal_error (samples.env 0)
              (prom.NewContext (samples.backend "upstream timed out"))
              "up" 1700000000 1700000000 1700003600 15000000000
              "upstream timed out" "invalid character")
    as [H1 _]; [vm_compute; reflexivity|].
  apply H1. vm_compute. reflexivity.
Defined.

(** A client that hands back nothing at all. *)
Lemma Sync_panics_on_nil_response_witness :
  prom.QuerySync (samples.env 0) (prom.NewContext fixtures.silent)
                 "up" 1700000000
  = prom.Panic
      "runtime error: invalid memory address or nil pointer dereference"
  /\ prom.QueryRangeSync (samples.env 0) (prom.NewContext fixtures.silent)
       "up" 1700000000 1700003600 15000000000
     = prom.Panic
         "runtime error: invalid memory address or nil pointer dereference".
Proof.
  destruct (Sync_panics_on_nil_response (samples.env 0)
              (prom.NewContext fixtures.silent)
              "up" 1700000000 1700000000 1700003600 15000000000)
    as [H1 H2].
  split.
  - apply (H1 (prom.mkRequest "POST"
                 "http://prometheus:9090/api/v1/query?time=1700000000"
                 ∅ None (Some "up"%string)) ""%string);
      vm_compute; reflexivity.
  - apply (H2 (prom.mkRequest "POST"
                 "http://prometheus:9090/api/v1/query_range?"
                 ∅ None (Some "up"%string)) ""%string);
      vm_compute; reflexivity.
Defined.
